(** * Session and request orchestration of the portfolio tracker front end

    A shallow embedding of [frontend/js/config.js], [api.js], [auth.js],
    [dashboard.js] and [portfolio.js], and the properties of the request
    gateway, the credential store, the session guard and the view
    controllers.

    Conventions of the embedding.
    - A JavaScript string is a sequence of UTF-16 code units; the model keeps
      the code units below 256, one [ascii] each, so [String.length] is the
      JavaScript [length].
    - A number of a parsed body is a safe integer, one strictly between
      -2^53 and 2^53: [JSON.parse] reads each of them exactly and [String]
      prints its decimal digits. Fractions and numbers beyond that range are
      not represented. A sum is formed as the code forms it, in double
      precision; where a sum has left the safe integers, the text made of it
      is kept as the number and not spelled out.
    - The body of a failed response is an arbitrary JSON value, since the
      gateway inspects it; the body of an ok response is the record that the
      remote interface promises for the call, so what the pages would do
      with an ok body of another shape is outside the model.
    - [localStorage] and the headers object are finite maps with string keys;
      the document is a finite map from element ids to elements, and markup
      written through [innerHTML] is kept as the data it shows.
    - An [async] function is a resumption: it runs to its next [fetch] and
      hands back the continuation that the event loop calls with the answer.
      [response.json()] is part of that answer.
    - Of the pages' functions, [handleCreatePortfolio], [handleAddCoin],
      [selectCoin], [showAIInsights] and [renderAIInsights] are not
      embedded; [e.preventDefault()] has no counterpart. *)

From Stdlib Require Import ZArith Ascii String List Bool Lia.
From stdpp Require Import base option gmap strings list pretty.

Open Scope string_scope.
Open Scope Z_scope.

(** ** Strings *)

Module Str.

(** [s.includes(sub)] *)
Fixpoint includes (sub s : string) : bool :=
  if String.prefix sub s then true
  else match s with
       | EmptyString => false
       | String _ s' => includes sub s'
       end.

(** White space and line terminators of ECMAScript below code unit 256:
    TAB, LF, VT, FF, CR, SP and NBSP. *)
Definition is_white (c : ascii) : bool :=
  let n := N_of_ascii c in
  (N.eqb n 9 || N.eqb n 10 || N.eqb n 11 || N.eqb n 12 || N.eqb n 13
   || N.eqb n 32 || N.eqb n 160)%bool.

Fixpoint trim_start (s : string) : string :=
  match s with
  | String c s' => if is_white c then trim_start s' else s
  | EmptyString => EmptyString
  end.

(** [s.trim()] *)
Definition trim (s : string) : string :=
  String.rev (trim_start (String.rev (trim_start s))).

(** Truthiness of a string value: every string but the empty one. *)
Definition nonempty (s : string) : bool :=
  match s with EmptyString => false | _ => true end.

Definition hex_digit (n : N) : ascii :=
  if (n <? 10)%N then ascii_of_N (48 + n) else ascii_of_N (55 + n).

Definition percent (n : N) : string :=
  String "%" (String (hex_digit (n / 16)) (String (hex_digit (n mod 16)) "")).

(** Characters that [encodeURIComponent] leaves alone:
    letters, digits and - _ . ! ~ * ' ( ) *)
Definition unreserved (n : N) : bool :=
  ((65 <=? n) && (n <=? 90) || (97 <=? n) && (n <=? 122)
   || (48 <=? n) && (n <=? 57)
   || N.eqb n 45 || N.eqb n 95 || N.eqb n 46 || N.eqb n 33 || N.eqb n 126
   || N.eqb n 42 || N.eqb n 39 || N.eqb n 40 || N.eqb n 41)%N%bool.

(** [encodeURIComponent(s)]: the UTF-8 bytes of every other character,
    percent-escaped. *)
Fixpoint encodeURIComponent (s : string) : string :=
  match s with
  | EmptyString => EmptyString
  | String c s' =>
      let n := N_of_ascii c in
      (if unreserved n then String c ""
       else if (n <? 128)%N then percent n
       else percent (192 + n / 64) ++ percent (128 + n mod 64))
      ++ encodeURIComponent s'
  end.

(** Groups of three digits from the right, as the en-US locale prints them. *)
Fixpoint group_rev (s : string) (k : nat) : string :=
  match s with
  | EmptyString => EmptyString
  | String c s' =>
      match k with
      | O => String "," (String c (group_rev s' 2))
      | S k' => String c (group_rev s' k')
      end
  end.

Definition grouped (digits : string) : string :=
  String.rev (group_rev (String.rev digits) 3).

End Str.

(** ** Numbers *)

Module Num.

(** [Number.isSafeInteger(n)] of an integer [n]. *)
Definition safe (n : Z) : bool := (- 2 ^ 53 <? n) && (n <? 2 ^ 53).

(** A number as a parsed body holds it: a safe integer. *)
Record t : Type := make { val : Z; val_safe : safe val = true }.

Definition zero : t := make 0 eq_refl.

(** The double nearest to the integer [x], a tie going to the even
    significand. A double from 2^53 on has a significand [m] of 53 bits,
    2^52 <= m < 2^53, and is [m * q] for a power [q] of two. No sum formed
    here comes near 2^1024, where the doubles end. *)
Definition fl (x : Z) : Z :=
  let a := Z.abs x in
  if a <=? 2 ^ 53 then x
  else
    let q := 2 ^ (Z.log2 a - 52) in
    let m := a / q in
    let r := a mod q in
    let m' := if 2 * r <? q then m
              else if q <? 2 * r then m + 1
              else if Z.even m then m else m + 1 in
    Z.sgn x * (m' * q).

(** [a + b] of two doubles with integer values. *)
Definition add (a b : Z) : Z := fl (a + b).

End Num.

Notation "# n" := (Num.make n eq_refl) (at level 1, format "# n").

(** The decimal numeral of an integer. *)
Definition digits (n : Z) : string := pretty n.

(** [String(n)] *)
Definition num_to_string (n : Num.t) : string := digits (Num.val n).

(** The en-US form of an integer with two fraction digits. *)
Definition grouped2 (n : Z) : string :=
  (if n <? 0 then "-" else "") ++ Str.grouped (pretty (Z.abs_N n)) ++ ".00".

(** [n.toLocaleString('en-US', {minimumFractionDigits: 2,
    maximumFractionDigits: 2})] *)
Definition toLocaleString2 (n : Num.t) : string := grouped2 (Num.val n).

(** ** JSON values and JavaScript errors *)

#[warnings="-register-all"]
Inductive JSON : Type :=
| JNull
| JBool (b : bool)
| JNum (n : Num.t)
| JStr (s : string)
| JArr (items : list JSON)
| JObj (members : list (string * JSON)).

(** The member named [k] of a parsed object: of two members with one name
    [JSON.parse] keeps the later. *)
Fixpoint member (k : string) (ms : list (string * JSON)) : option JSON :=
  match ms with
  | [] => None
  | (k', v) :: rest =>
      match member k rest with
      | Some v' => Some v'
      | None => if String.eqb k k' then Some v else None
      end
  end.

(** Truthiness; [None] is [undefined]. *)
Definition truthy (v : option JSON) : bool :=
  match v with
  | None | Some JNull => false
  | Some (JBool b) => b
  | Some (JNum n) => negb (Num.val n =? 0)
  | Some (JStr s) => Str.nonempty s
  | Some (JArr _) | Some (JObj _) => true
  end.

Definition join_comma (parts : list string) : string :=
  match parts with
  | [] => ""
  | p :: ps => fold_left (fun acc q => acc ++ "," ++ q) ps p
  end.

(** Whether a parsed object has a member of its own named [k]. *)
Definition has_member (k : string) (ms : list (string * JSON)) : bool :=
  existsb (fun m => String.eqb k m.1) ms.

(** [String(v)], [None] where the conversion throws. An array prints its
    items separated by commas, with [null] items empty. An object prints as
    [[object Object]] through the [toString] it inherits; a member of its
    own named [toString] hides that one and, being no function, leaves the
    object without a primitive value: the conversion throws, also where the
    object is an item of an array. *)
Fixpoint to_string (v : JSON) : option string :=
  match v with
  | JNull => Some "null"
  | JBool true => Some "true"
  | JBool false => Some "false"
  | JNum n => Some (num_to_string n)
  | JStr s => Some s
  | JArr items =>
      let fix parts (l : list JSON) : option (list string) :=
        match l with
        | [] => Some []
        | i :: rest =>
            match (match i with JNull => Some "" | _ => to_string i end) with
            | Some p =>
                match parts rest with
                | Some ps => Some (p :: ps)
                | None => None
                end
            | None => None
            end
        end in
      match parts items with
      | Some ps => Some (join_comma ps)
      | None => None
      end
  | JObj ms => if has_member "toString" ms then None
               else Some "[object Object]"
  end.

Record Error : Type := mkError { error_name : string; message : string }.

(** [new Error(msg)] *)
Definition new_Error (msg : string) : Error :=
  {| error_name := "Error"; message := msg |}.

(** The [TypeError] of reading property [p] of [null]. The wording is the
    engine's (here V8's). *)
Definition null_read (p : string) : Error :=
  {| error_name := "TypeError";
     message := "Cannot read properties of null (reading '" ++ p ++ "')" |}.

(** The [TypeError] of writing property [p] of [null]. *)
Definition null_write (p : string) : Error :=
  {| error_name := "TypeError";
     message := "Cannot set properties of null (setting '" ++ p ++ "')" |}.

(** The [TypeError] of converting an object that has no primitive value. *)
Definition not_primitive : Error :=
  {| error_name := "TypeError";
     message := "Cannot convert object to primitive value" |}.

(** The message that [new Error(v)] makes of a value, [String(v)]; the
    conversion may throw instead. *)
Definition message_of (v : JSON) : Error + string :=
  match to_string v with
  | Some msg => inr msg
  | None => inl not_primitive
  end.

(** [data.p]: [null] has no properties; numbers, booleans, strings and
    arrays have none of the names read here. *)
Definition prop (p : string) (data : JSON) : Error + option JSON :=
  match data with
  | JNull => inl (null_read p)
  | JObj ms => inr (member p ms)
  | _ => inr None
  end.

(** ** The data model: bodies of the remote interface *)

Record User : Type := { username : string; email : string }.

Module Portfolio.
Record t : Type :=
  { id : Num.t;
    name : string;
    description : option string;
    is_public : bool;
    holdings_count : Num.t }.
End Portfolio.

Module Holding.
Record t : Type :=
  { coin_id : string;
    symbol : string;
    quantity : Num.t;
    current_price : Num.t;
    holding_value : Num.t;
    average_buy_price : option Num.t;
    profit_loss : option Num.t }.
End Holding.

Module Valuation.
Record t : Type :=
  { total_value_usd : option Num.t;
    holdings : option (list Holding.t) }.
End Valuation.

Module HoldingsData.
Record t : Type := { holdings : option (list JSON) }.
End HoldingsData.

Module Coin.
Record t : Type := { id : string; symbol : string; name : string }.
End Coin.

Module SearchData.
Record t : Type := { results : option (list Coin.t) }.
End SearchData.

Record LoginData : Type :=
  { access_token : string; refresh_token : option string }.

(** ** config.js *)

Definition API_BASE_URL : string := "http://localhost:8000".
Definition TOKEN_KEY : string := "access_token".
Definition REFRESH_TOKEN_KEY : string := "refresh_token".

(** The calls the pages make. [COIN_SEARCH query] is the search address with
    its [?query=] part. *)
Inductive Endpoint : Type :=
| LOGIN
| REGISTER
| ME
| PORTFOLIOS
| PORTFOLIO_BY_ID (id : string)
| PORTFOLIO_HOLDINGS (id : string)
| PORTFOLIO_VALUATION (id : string)
| COIN_SEARCH (query : string).

Definition url (e : Endpoint) : string :=
  match e with
  | LOGIN => API_BASE_URL ++ "/api/auth/login"
  | REGISTER => API_BASE_URL ++ "/api/auth/register"
  | ME => API_BASE_URL ++ "/api/auth/me"
  | PORTFOLIOS => API_BASE_URL ++ "/api/portfolio"
  | PORTFOLIO_BY_ID id => API_BASE_URL ++ "/api/portfolio/" ++ id
  | PORTFOLIO_HOLDINGS id =>
      API_BASE_URL ++ "/api/portfolio/" ++ id ++ "/holdings"
  | PORTFOLIO_VALUATION id =>
      API_BASE_URL ++ "/api/portfolio/" ++ id ++ "/valuation"
  | COIN_SEARCH query =>
      API_BASE_URL ++ "/api/coins/search" ++ "?query="
        ++ Str.encodeURIComponent query
  end.

(** The address that [fetch] is given is [url] of the call. What an ok
    response to a call carries, once parsed: *)
Definition Body (e : Endpoint) : Type :=
  match e with
  | LOGIN => LoginData
  | REGISTER => JSON
  | ME => User
  | PORTFOLIOS => list Portfolio.t
  | PORTFOLIO_BY_ID _ => Portfolio.t
  | PORTFOLIO_HOLDINGS _ => HoldingsData.t
  | PORTFOLIO_VALUATION _ => Valuation.t
  | COIN_SEARCH _ => SearchData.t
  end.

(** ** The browser: requests, the document, timers, the page's variables *)

Record Request : Type :=
  { endpoint : Endpoint;
    method : option string;
    headers : gmap string string;
    body : option JSON }.

(** How a [fetch] followed by [response.json()] ends. A response is told
    apart by its [ok] flag, set for the statuses 200 to 299. *)
Inductive FetchResult (B : Type) : Type :=
| Rejects (e : Error)                  (* [fetch] rejects: no response *)
| BodyRejects (status : Z) (e : Error) (* [response.json()] rejects *)
| Succeeds (data : B)                  (* ok, body parsed *)
| Fails (status : Z) (data : JSON).    (* not ok, body parsed *)
Arguments Rejects {B} e.
Arguments BodyRejects {B} status e.
Arguments Succeeds {B} data.
Arguments Fails {B} status data.

Inductive Tone : Type := Plain | Danger | Muted.

(** What an element shows. Markup written through [innerHTML] is kept as the
    data it is built from. [Number n] is the text [String(n)] and [Amount n]
    the text of [$] and [n.toLocaleString(...)], for a sum [n] that has left
    the safe integers. *)
Inductive Content : Type :=
| Text (s : string)
| Number (n : Z)
| Amount (n : Z)
| UserInfo (username email : string)
| Notice (tone : Tone) (msg : string)
| PortfolioCards (cards : list Portfolio.t)
| HoldingsTable (rows : list Holding.t)
| CoinResults (coins : list Coin.t).

Record Element : Type :=
  { content : Content;
    classes : list string;
    value : string;
    children : list string }.

Inductive Action : Type :=
| SearchCoins (query : string)
| GoDashboard
| BackToLogin (email : string).

Record Timer : Type := { tid : nat; due : nat; action : Action }.

Inductive Event : Type :=
| Fetch (req : Request)
| Navigate (href : string)
| Alert (msg : string)
| ConsoleError (label : string) (e : Error)
| Listen (target type : string).

Record World : Type :=
  { storage : gmap string string;      (* localStorage *)
    dom : gmap string Element;         (* the document, by element id *)
    log : list Event;                  (* what the page did, oldest first *)
    now : nat;
    timers : list Timer;               (* pending, by due time *)
    next_timer : nat;
    url_id : option string;            (* [?id=] of the page address *)
    (* dashboard.js *)
    portfolios : list Portfolio.t;
    currentUser : option User;
    (* portfolio.js *)
    portfolioId : option string;
    portfolio : option Portfolio.t;
    holdings : list JSON;
    searchTimeout : option nat }.

Definition with_storage (f : gmap string string → gmap string string)
    (w : World) : World :=
  {| storage := f (storage w); dom := dom w; log := log w; now := now w;
     timers := timers w; next_timer := next_timer w; url_id := url_id w;
     portfolios := portfolios w; currentUser := currentUser w;
     portfolioId := portfolioId w; portfolio := portfolio w;
     holdings := holdings w; searchTimeout := searchTimeout w |}.

Definition with_dom (f : gmap string Element → gmap string Element)
    (w : World) : World :=
  {| storage := storage w; dom := f (dom w); log := log w; now := now w;
     timers := timers w; next_timer := next_timer w; url_id := url_id w;
     portfolios := portfolios w; currentUser := currentUser w;
     portfolioId := portfolioId w; portfolio := portfolio w;
     holdings := holdings w; searchTimeout := searchTimeout w |}.

Definition emit (e : Event) (w : World) : World :=
  {| storage := storage w; dom := dom w; log := log w ++ [e]; now := now w;
     timers := timers w; next_timer := next_timer w; url_id := url_id w;
     portfolios := portfolios w; currentUser := currentUser w;
     portfolioId := portfolioId w; portfolio := portfolio w;
     holdings := holdings w; searchTimeout := searchTimeout w |}.

Definition with_timers (t : nat) (ts : list Timer) (next : nat)
    (st : option nat) (w : World) : World :=
  {| storage := storage w; dom := dom w; log := log w; now := t;
     timers := ts; next_timer := next; url_id := url_id w;
     portfolios := portfolios w; currentUser := currentUser w;
     portfolioId := portfolioId w; portfolio := portfolio w;
     holdings := holdings w; searchTimeout := st |}.

Definition with_dashboard (ps : list Portfolio.t) (u : option User)
    (w : World) : World :=
  {| storage := storage w; dom := dom w; log := log w; now := now w;
     timers := timers w; next_timer := next_timer w; url_id := url_id w;
     portfolios := ps; currentUser := u;
     portfolioId := portfolioId w; portfolio := portfolio w;
     holdings := holdings w; searchTimeout := searchTimeout w |}.

Definition with_detail (pid : option string) (p : option Portfolio.t)
    (hs : list JSON) (w : World) : World :=
  {| storage := storage w; dom := dom w; log := log w; now := now w;
     timers := timers w; next_timer := next_timer w; url_id := url_id w;
     portfolios := portfolios w; currentUser := currentUser w;
     portfolioId := pid; portfolio := p;
     holdings := hs; searchTimeout := searchTimeout w |}.

(** ** Asynchronous functions

    A call of an [async] function runs until it awaits a [fetch]: [Await]
    holds the world at that point, the request sent and the rest of the
    function, which the event loop later calls with the answer and with the
    world as it is by then. [Done] is a settled promise: fulfilled ([inr])
    or rejected ([inl]). A function that awaits nothing is [Done] at once. *)

Inductive Step (A : Type) : Type :=
| Done (w : World) (r : Error + A)
| Await (w : World) (req : Request)
        (k : FetchResult (Body (endpoint req)) → World → Step A).
Arguments Done {A} w r.
Arguments Await {A} w req k.

Definition Async (A : Type) : Type := World → Step A.

Definition ret {A} (a : A) : Async A := fun w => Done w (inr a).

(** [throw e] *)
Definition throw {A} (e : Error) : Async A := fun w => Done w (inl e).

Fixpoint bind_step {A B} (s : Step A) (f : A → Async B) : Step B :=
  match s with
  | Done w (inr a) => f a w
  | Done w (inl e) => Done w (inl e)
  | Await w req k => Await w req (fun r w' => bind_step (k r w') f)
  end.

Definition bind {A B} (m : Async A) (f : A → Async B) : Async B :=
  fun w => bind_step (m w) f.

Fixpoint catch_step {A} (s : Step A) (h : Error → Async A) : Step A :=
  match s with
  | Done w (inr a) => Done w (inr a)
  | Done w (inl e) => h e w
  | Await w req k => Await w req (fun r w' => catch_step (k r w') h)
  end.

(** [try { m } catch (error) { h error }] *)
Definition try_catch {A} (m : Async A) (h : Error → Async A) : Async A :=
  fun w => catch_step (m w) h.

Notation "'let*' x ':=' m 'in' k" := (bind m (fun x => k))
  (at level 10, x name, m at level 100, k at level 200).
Notation "m >> k" := (bind m (fun _ => k))
  (at level 100, k at level 200, right associativity).

(** A statement that only changes the world. *)
Definition act (f : World → World) : Async unit :=
  fun w => Done (f w) (inr tt).

(** An expression that only reads the world. *)
Definition read {A} (f : World → A) : Async A := fun w => Done w (inr (f w)).

(** The world in which a call stands when it first gives up control, which
    is all that a caller who does not await it waits for. *)
Definition detach {A} (m : Async A) : Async unit :=
  fun w => match m w with
           | Done w' _ => Done w' (inr tt)
           | Await w' _ _ => Done w' (inr tt)
           end.

(** The suspended call [s], continued in the world [later] once its request
    is answered. *)
Definition resumed {A} (s : Step A)
    (answer : ∀ req, FetchResult (Body (endpoint req))) (later : World)
  : Step A :=
  match s with
  | Done w r => Done w r
  | Await _ req k => k (answer req) later
  end.

(** The remote service: the answer to the [n]-th request of a run. *)
Definition Server : Type :=
  nat → ∀ req : Request, FetchResult (Body (endpoint req)).

(** A call run to its end with every request answered at once, nothing else
    happening in between. *)
Fixpoint run {A} (srv : Server) (n : nat) (s : Step A)
  : nat * World * (Error + A) :=
  match s with
  | Done w r => (n, w, r)
  | Await w req k => run srv (S n) (k (srv n req) w)
  end.

(** ** The document and the console *)

Definition console_error (label : string) (e : Error) : Async unit :=
  act (emit (ConsoleError label e)).

(** [window.location.href = href]: the navigation is asked for; the script
    goes on. *)
Definition navigate (href : string) : Async unit := act (emit (Navigate href)).

Definition alert (msg : string) : Async unit := act (emit (Alert msg)).

(** [document.getElementById(id)], [null] being [None]. *)
Definition getElementById (id : string) : Async (option Element) :=
  read (fun w => dom w !! id).

Definition set_content (c : Content) (e : Element) : Element :=
  {| content := c; classes := classes e; value := value e;
     children := children e |}.

Definition set_classes (cs : list string) (e : Element) : Element :=
  {| content := content e; classes := cs; value := value e;
     children := children e |}.

Definition set_value (v : string) (e : Element) : Element :=
  {| content := content e; classes := classes e; value := v;
     children := children e |}.

(** An element with no attributes, as markup creates it. *)
Definition fresh (c : Content) : Element :=
  {| content := c; classes := []; value := ""; children := [] |}.

(** [document.getElementById(id).textContent = ...], the text as the
    content [c]. *)
Definition set_text (id : string) (c : Content) : Async unit :=
  fun w => match dom w !! id with
           | None => Done w (inl (null_write "textContent"))
           | Some e => Done (with_dom (insert id (set_content c e)) w) (inr tt)
           end.

(** [document.getElementById(id).textContent = s] *)
Definition set_textContent (id s : string) : Async unit :=
  set_text id (Text s).

(** The text of a number [n], as [textContent = n] makes it. *)
Definition number_text (n : Z) : Content :=
  if Num.safe n then Text (digits n) else Number n.

(** The text of [`$${n.toLocaleString('en-US', {minimumFractionDigits: 2,
    maximumFractionDigits: 2})}`]. *)
Definition amount_text (n : Z) : Content :=
  if Num.safe n then Text ("$" ++ grouped2 n) else Amount n.

(** [document.getElementById(id).innerHTML = markup]: the elements that the
    old markup made go, those of the new markup, [made], come. *)
Definition set_innerHTML (id : string) (c : Content)
    (made : list (string * Element)) : Async unit :=
  fun w =>
    match dom w !! id with
    | None => Done w (inl (null_write "innerHTML"))
    | Some e =>
        let cleared := foldr delete (dom w) (children e) in
        let parent :=
          {| content := c; classes := classes e; value := value e;
             children := List.map fst made |} in
        let filled :=
          foldr (fun kv d => <[kv.1 := kv.2]> d) cleared made in
        Done (with_dom (fun _ => <[id := parent]> filled) w) (inr tt)
    end.

(** [document.getElementById(id).className = ...], as the list of classes. *)
Definition set_className (id : string) (cs : list string) : Async unit :=
  fun w => match dom w !! id with
           | None => Done w (inl (null_write "className"))
           | Some e => Done (with_dom (insert id (set_classes cs e)) w) (inr tt)
           end.

Definition classList_add (c : string) (cs : list string) : list string :=
  if bool_decide (c ∈ cs) then cs else cs ++ [c].

Definition classList_remove (c : string) (cs : list string) : list string :=
  List.filter (fun c' => negb (String.eqb c c')) cs.

(** [document.getElementById(id).classList.add(c)] or [.remove(c)] *)
Definition classList (id : string) (f : list string → list string)
  : Async unit :=
  fun w => match dom w !! id with
           | None => Done w (inl (null_read "classList"))
           | Some e =>
               Done (with_dom (insert id (set_classes (f (classes e)) e)) w)
                    (inr tt)
           end.

(** [document.getElementById(id).value] *)
Definition get_value (id : string) : Async string :=
  fun w => match dom w !! id with
           | None => Done w (inl (null_read "value"))
           | Some e => Done w (inr (value e))
           end.

(** [document.getElementById(id).addEventListener(type, ...)] *)
Definition addEventListener (id type : string) : Async unit :=
  fun w => match dom w !! id with
           | None => Done w (inl (null_read "addEventListener"))
           | Some _ => Done (emit (Listen id type) w) (inr tt)
           end.

(** ** Timers *)

Fixpoint schedule (t : Timer) (ts : list Timer) : list Timer :=
  match ts with
  | [] => [t]
  | t' :: rest =>
      if (due t <? due t')%nat then t :: ts else t' :: schedule t rest
  end.

(** [setTimeout(a, delay)], giving the timer's handle. *)
Definition setTimeout (a : Action) (delay : nat) : Async nat :=
  fun w =>
    let t := {| tid := next_timer w; due := (now w + delay)%nat;
                action := a |} in
    Done (with_timers (now w) (schedule t (timers w)) (S (next_timer w))
                     (searchTimeout w) w)
         (inr (next_timer w)).

(** [clearTimeout(h)]; without a handle, or with one that has fired, nothing
    happens. *)
Definition clearTimeout (h : option nat) : Async unit :=
  act (fun w =>
    match h with
    | None => w
    | Some i =>
        with_timers (now w)
          (List.filter (fun t => negb (Nat.eqb (tid t) i)) (timers w))
          (next_timer w) (searchTimeout w) w
    end).

(** ** api.js *)

Record Options : Type :=
  { opt_method : option string;
    opt_body : option JSON;
    opt_headers : gmap string string;
    skipAuth : bool }.

Definition no_options : Options :=
  {| opt_method := None; opt_body := None; opt_headers := ∅;
     skipAuth := false |}.

(** Truthiness of a string that may be [null] or [undefined], such as what
    [localStorage.getItem] gives. *)
Definition truthy_str (s : option string) : bool :=
  match s with
  | Some t => Str.nonempty t
  | None => false
  end.

(** The [headers] object that [apiCall] passes to [fetch]. *)
Definition apiCall_headers (token : option string) (options : Options)
  : gmap string string :=
  let headers :=
    opt_headers options ∪ {[ "Content-Type" := "application/json" ]} in
  if truthy_str token && negb (skipAuth options)
  then <[ "Authorization" := "Bearer " ++ default "" token ]> headers
  else headers.

(** [data.error || data.detail || 'Request failed'], as the message that
    [new Error] makes of it. *)
Definition failure_message (data : JSON) : Error + string :=
  match prop "error" data with
  | inl e => inl e
  | inr err =>
      if truthy err then from_option message_of (inr "") err
      else match prop "detail" data with
           | inl e => inl e
           | inr detail =>
               if truthy detail then from_option message_of (inr "") detail
               else inr "Request failed"
           end
  end.

(** What the body of [apiCall]'s [try] comes to once the fetch is over. *)
Definition settle {B} (r : FetchResult B) : Error + B :=
  match r with
  | Rejects e => inl e
  | BodyRejects _ e => inl e
  | Succeeds data => inr data
  | Fails _ data =>
      match failure_message data with
      | inl e => inl e
      | inr msg => inl (new_Error msg)
      end
  end.

Definition apiCall (e : Endpoint) (options : Options) : Async (Body e) :=
  fun w =>
    let token := storage w !! TOKEN_KEY in
    let req := {| endpoint := e; method := opt_method options;
                  headers := apiCall_headers token options;
                  body := opt_body options |} in
    Await (emit (Fetch req) w) req
      (fun answer later =>
         match settle answer with
         | inr data => Done later (inr data)
         | inl error =>
             (console_error "API Error:" error >> throw error) later
         end).

Definition saveToken (token : string) (refreshToken : option string)
  : Async unit :=
  act (with_storage (insert TOKEN_KEY token)) >>
  if truthy_str refreshToken
  then act (with_storage (insert "refresh_token" (default "" refreshToken)))
  else ret tt.

Definition getToken : Async (option string) :=
  read (fun w => storage w !! TOKEN_KEY).

Definition removeTokens : Async unit :=
  act (with_storage (fun st => delete "refresh_token" (delete TOKEN_KEY st))).

Definition isAuthenticated : Async bool :=
  let* token := getToken in ret (truthy_str token).

(** [v || 0] of a number that may be missing: a missing or zero [v] gives
    0, any other [v] itself. *)
Definition or_zero (v : option Num.t) : Num.t := default Num.zero v.

(** [s || fallback] of a string that may be missing. *)
Definition or_string (s : option string) (fallback : string) : string :=
  match s with
  | Some t => if Str.nonempty t then t else fallback
  | None => fallback
  end.

(** [list.forEach(f)] *)
Fixpoint forEach {A} (f : A → Async unit) (l : list A) : Async unit :=
  match l with
  | [] => ret tt
  | x :: rest => f x >> forEach f rest
  end.

(** ** dashboard.js *)

Module Dashboard.

(** The check at the top of the module. *)
Definition guard : Async unit :=
  let* authenticated := isAuthenticated in
  if negb authenticated then navigate "index.html" else ret tt.

Definition loadUserInfo : Async unit :=
  try_catch
    (let* user := apiCall ME no_options in
     act (fun w => with_dashboard (portfolios w) (Some user) w) >>
     set_innerHTML "userInfo" (UserInfo (username user) (email user)) [])
    (fun error => console_error "Error loading user info:" error).

Definition updateDashboardStats : Async unit :=
  let* ps := read portfolios in
  let totalPortfolios := Z.of_nat (length ps) in
  let totalCoins :=
    fold_left
      (fun sum p => Num.add sum (Num.val (Portfolio.holdings_count p)))
      ps 0 in
  set_text "portfolioCount" (number_text totalPortfolios) >>
  set_text "coinCount" (number_text totalCoins) >>
  set_textContent "totalValue" "$0.00" >>
  set_textContent "totalProfit" "$0.00".

(** The id of the element that shows a portfolio's value. *)
Definition value_id (portfolioId : Num.t) : string :=
  "portfolio-value-" ++ num_to_string portfolioId.

Definition loadPortfolioValuation (portfolioId : Num.t) : Async unit :=
  try_catch
    (let* valuation :=
       apiCall (PORTFOLIO_VALUATION (num_to_string portfolioId)) no_options in
     let* valueEl := getElementById (value_id portfolioId) in
     match valueEl with
     | Some _ =>
         let value := or_zero (Valuation.total_value_usd valuation) in
         set_textContent (value_id portfolioId) ("$" ++ toLocaleString2 value)
     | None => ret tt
     end)
    (fun error =>
       console_error
         ("Error loading valuation for portfolio "
            ++ num_to_string portfolioId ++ ":") error >>
       let* valueEl := getElementById (value_id portfolioId) in
       match valueEl with
       | Some _ => set_textContent (value_id portfolioId) "$0.00"
       | None => ret tt
       end).

Definition renderPortfolios : Async unit :=
  let* ps := read portfolios in
  match ps with
  | [] =>
      set_innerHTML "portfoliosList"
        (Notice Plain
           "No portfolios yet. Create your first portfolio to get started!")
        []
  | _ =>
      set_innerHTML "portfoliosList" (PortfolioCards ps)
        (List.map (fun p => (value_id (Portfolio.id p),
                             fresh (Text "Loading..."))) ps) >>
      forEach (fun p => detach (loadPortfolioValuation (Portfolio.id p))) ps
  end.

Definition loadPortfolios : Async unit :=
  try_catch
    (let* data := apiCall PORTFOLIOS no_options in
     act (fun w => with_dashboard data (currentUser w) w) >>
     updateDashboardStats >>
     renderPortfolios)
    (fun error =>
       console_error "Error loading portfolios:" error >>
       set_innerHTML "portfoliosList"
         (Notice Danger "Failed to load portfolios. Please refresh the page.")
         []).

(** [window.viewPortfolio] *)
Definition viewPortfolio (portfolioId : Num.t) : Async unit :=
  navigate ("portfolio.html?id=" ++ num_to_string portfolioId).

(** The click handler of the logout link. *)
Definition logout : Async unit := removeTokens >> navigate "index.html".

(** The first element of class [close-modal] stands in the document under
    its selector. *)
Definition setupEventListeners : Async unit :=
  addEventListener "createPortfolioBtn" "click" >>
  addEventListener ".close-modal" "click" >>
  addEventListener "createPortfolioForm" "submit" >>
  addEventListener "logoutBtn" "click".

Definition init : Async unit :=
  try_catch
    (loadUserInfo >>
     loadPortfolios >>
     setupEventListeners)
    (fun error =>
       console_error "Initialization error:" error >>
       if Str.includes "401" (message error)
       then removeTokens >> navigate "index.html"
       else ret tt).

(** The module, top to bottom: the check, the two variables, [init()]. *)
Definition page : Async unit :=
  guard >>
  act (with_dashboard [] None) >>
  init.

End Dashboard.

(** ** portfolio.js *)

Module Detail.

Definition guard : Async unit :=
  let* authenticated := isAuthenticated in
  if negb authenticated then navigate "index.html" else ret tt.

(** The three variables, [portfolioId = urlParams.get('id')] and the check
    that follows it. *)
Definition readPortfolioId : Async unit :=
  act (with_detail None None []) >>
  act (fun w => with_detail (url_id w) (portfolio w) (holdings w) w) >>
  let* pid := read portfolioId in
  if negb (truthy_str pid) then navigate "dashboard.html" else ret tt.

(** The [portfolioId] as an address is built from it; [null] prints as
    [null]. *)
Definition id_text (pid : option string) : string := default "null" pid.

Definition loadUserInfo : Async unit :=
  try_catch
    (let* user := apiCall ME no_options in
     set_innerHTML "userInfo" (UserInfo (username user) (email user)) [])
    (fun error => console_error "Error loading user info:" error).

Definition loadPortfolio : Async unit :=
  try_catch
    (let* pid := read portfolioId in
     let* data := apiCall (PORTFOLIO_BY_ID (id_text pid)) no_options in
     act (fun w => with_detail (portfolioId w) (Some data) (holdings w) w) >>
     set_textContent "portfolioName" (Portfolio.name data) >>
     set_textContent "portfolioDescription"
       (or_string (Portfolio.description data) "No description"))
    (fun error =>
       console_error "Error loading portfolio:" error >>
       alert "Portfolio not found" >>
       navigate "dashboard.html").

Definition updatePortfolioStats (valuation : Valuation.t) : Async unit :=
  let totalValue := or_zero (Valuation.total_value_usd valuation) in
  let rows := default [] (Valuation.holdings valuation) in
  let holdingsCount := Z.of_nat (length rows) in
  let totalProfitLoss :=
    fold_left
      (fun total h =>
         match Holding.profit_loss h with
         | Some profit =>
             if Num.val profit =? 0 then total
             else Num.add total (Num.val profit)
         | None => total
         end)
      rows 0 in
  set_textContent "totalValue" ("$" ++ toLocaleString2 totalValue) >>
  set_text "totalCoins" (number_text holdingsCount) >>
  set_text "totalProfitLoss" (amount_text (Z.abs totalProfitLoss)) >>
  set_className "totalProfitLoss"
    ["value"; if 0 <=? totalProfitLoss then "positive" else "negative"].

Definition quote : string := String (ascii_of_nat 34) "".

Definition renderHoldings (valuationHoldings : list Holding.t) : Async unit :=
  match valuationHoldings with
  | [] =>
      set_innerHTML "holdingsContainer"
        (Notice Plain
           ("No coins in this portfolio yet. Click " ++ quote ++ "Add Coin"
              ++ quote ++ " to get started!"))
        []
  | _ => set_innerHTML "holdingsContainer" (HoldingsTable valuationHoldings) []
  end.

Definition loadHoldings : Async unit :=
  try_catch
    (let* pid := read portfolioId in
     let* holdingsData :=
       apiCall (PORTFOLIO_HOLDINGS (id_text pid)) no_options in
     act (fun w => with_detail (portfolioId w) (portfolio w)
                     (default [] (HoldingsData.holdings holdingsData)) w) >>
     let* pid := read portfolioId in
     let* valuation :=
       apiCall (PORTFOLIO_VALUATION (id_text pid)) no_options in
     updatePortfolioStats valuation >>
     renderHoldings (default [] (Valuation.holdings valuation)))
    (fun error =>
       console_error "Error loading holdings:" error >>
       set_innerHTML "holdingsContainer"
         (Notice Danger "Failed to load holdings") []).

Definition searchCoins (query : string) : Async unit :=
  try_catch
    (let* data := apiCall (COIN_SEARCH query) no_options in
     let results := default [] (SearchData.results data) in
     match results with
     | [] => set_innerHTML "coinSearchResults"
               (Notice Muted "No coins found") []
     | _ => set_innerHTML "coinSearchResults" (CoinResults results) []
     end >>
     classList "coinSearchResults" (classList_add "show"))
    (fun error => console_error "Error searching coins:" error).

(** The [input] handler of the search box, [value] being [e.target.value].
    [searchTimeout] is the variable the handler closes over. *)
Definition onSearchInput (value : string) : Async unit :=
  let* pending := read searchTimeout in
  clearTimeout pending >>
  let query := Str.trim value in
  if (String.length query <? 2)%nat
  then classList "coinSearchResults" (classList_remove "show")
  else
    let* handle := setTimeout (SearchCoins query) 300 in
    act (fun w => with_timers (now w) (timers w) (next_timer w) (Some handle) w).

Definition logout : Async unit := removeTokens >> navigate "index.html".

(** An element reached by a class selector stands in the document under the
    selector; [querySelectorAll(...).forEach] and [?.] skip a missing one.
    [let searchTimeout] comes before the listener of the search box. *)
Definition listen_if_present (id type : string) : Async unit :=
  let* el := getElementById id in
  match el with
  | Some _ => addEventListener id type
  | None => ret tt
  end.

Definition setupEventListeners : Async unit :=
  addEventListener "addCoinBtn" "click" >>
  listen_if_present ".close-modal" "click" >>
  listen_if_present ".close-modal-insights" "click" >>
  act (fun w => with_timers (now w) (timers w) (next_timer w) None w) >>
  addEventListener "coinSearch" "input" >>
  addEventListener "addCoinForm" "submit" >>
  addEventListener "logoutBtn" "click".

Definition init : Async unit :=
  try_catch
    (loadUserInfo >>
     loadPortfolio >>
     loadHoldings >>
     setupEventListeners)
    (fun error =>
       console_error "Initialization error:" error >>
       if Str.includes "401" (message error)
       then removeTokens >> navigate "index.html"
       else ret tt).

(** The module, top to bottom. *)
Definition page : Async unit := guard >> readPortfolioId >> init.

End Detail.

(** ** auth.js *)

Module Auth.

Definition showMessage (msg type : string) : Async unit :=
  set_textContent "message" msg >>
  set_className "message" ["message"; type].

Definition clearMessage : Async unit :=
  set_className "message" ["message"] >>
  set_textContent "message" "".

(** The click handlers that switch between the two forms. *)
Definition showRegister : Async unit :=
  classList "loginForm" (classList_add "hidden") >>
  classList "registerForm" (classList_remove "hidden") >>
  clearMessage.

Definition showLogin : Async unit :=
  classList "registerForm" (classList_add "hidden") >>
  classList "loginForm" (classList_remove "hidden") >>
  clearMessage.

(** [error.message || fallback] *)
Definition message_or (error : Error) (fallback : string) : string :=
  or_string (Some (message error)) fallback.

(** The [submit] handler of the login form. *)
Definition login : Async unit :=
  let* email := get_value "loginEmail" in
  let* password := get_value "loginPassword" in
  try_catch
    (showMessage "Logging in..." "success" >>
     let* data :=
       apiCall LOGIN
         {| opt_method := Some "POST";
            opt_body := Some (JObj [("email", JStr email);
                                    ("password", JStr password)]);
            opt_headers := ∅;
            skipAuth := true |} in
     saveToken (access_token data) (refresh_token data) >>
     showMessage "Login successful! Redirecting..." "success" >>
     let* _ := setTimeout GoDashboard 1000 in
     ret tt)
    (fun error =>
       showMessage
         (message_or error "Login failed. Please check your credentials.")
         "error").

(** The [submit] handler of the registration form. *)
Definition register : Async unit :=
  let* email := get_value "registerEmail" in
  let* username := get_value "registerUsername" in
  let* fullName := get_value "registerFullName" in
  let* password := get_value "registerPassword" in
  if (String.length password <? 8)%nat
  then showMessage "Password must be at least 8 characters" "error"
  else
    try_catch
      (showMessage "Creating account..." "success" >>
       let* _ :=
         apiCall REGISTER
           {| opt_method := Some "POST";
              opt_body :=
                Some (JObj [("email", JStr email);
                            ("username", JStr username);
                            ("full_name",
                             if Str.nonempty fullName then JStr fullName
                             else JNull);
                            ("password", JStr password);
                            ("is_active", JBool true);
                            ("is_verified", JBool false);
                            ("role", JStr "user")]);
              opt_headers := ∅;
              skipAuth := true |} in
       showMessage "Account created! Please login." "success" >>
       let* _ := setTimeout (BackToLogin email) 1500 in
       ret tt)
      (fun error =>
         showMessage
           (message_or error "Registration failed. Please try again.")
           "error").

(** The timer callback after a registration. *)
Definition backToLogin (email : string) : Async unit :=
  classList "registerForm" (classList_add "hidden") >>
  classList "loginForm" (classList_remove "hidden") >>
  fun w => match dom w !! "loginEmail" with
           | None => Done w (inl (null_write "value"))
           | Some e =>
               Done (with_dom (insert "loginEmail" (set_value email e)) w)
                    (inr tt)
           end.

End Auth.

(** ** The event loop: timers *)

(** What a timer's callback does. *)
Definition perform (a : Action) : Async unit :=
  match a with
  | SearchCoins query => Detail.searchCoins query
  | GoDashboard => navigate "dashboard.html"
  | BackToLogin email => Auth.backToLogin email
  end.

Definition world_of {A} (s : Step A) : World :=
  match s with
  | Done w _ => w
  | Await w _ _ => w
  end.

(** The clock reaches [t]: the timers due by then leave the list and their
    callbacks run, in the order they are due, each as far as its first
    [fetch]. *)
Definition advance (t : nat) (w : World) : World :=
  let due_now := List.filter (fun x => (due x <=? t)%nat) (timers w) in
  let later := List.filter (fun x => negb (due x <=? t)%nat) (timers w) in
  fold_left (fun w' x => world_of (perform (action x) w'))
            due_now
            (with_timers (Nat.max (now w) t) later (next_timer w)
                        (searchTimeout w) w).

(** An [input] event of the search box at time [t]. *)
Definition input (t : nat) (value : string) (w : World) : World :=
  world_of (Detail.onSearchInput value (advance t w)).

(** The keystrokes [ks], each with its time, and then the clock at [t]. *)
Definition typing (ks : list (nat * string)) (t : nat) (w : World) : World :=
  advance t (fold_left (fun w' k => input k.1 k.2 w') ks w).

(** The search calls among the events of a log. *)
Definition searches (l : list Event) : list string :=
  omap (fun e => match e with
                 | Fetch {| endpoint := COIN_SEARCH q |} => Some q
                 | _ => None
                 end) l.

(** * The vocabulary of the statements *)

(** The request a call is waiting on. *)
Definition request_sent {A} (s : Step A) : option Request :=
  match s with
  | Done _ _ => None
  | Await _ req _ => Some req
  end.

(** A world with nothing stored, nothing logged and the elements [ids]. *)
Definition blank (st : gmap string string) (ids : list string) : World :=
  {| storage := st;
     dom := list_to_map (List.map (fun i => (i, fresh (Text ""))) ids);
     log := []; now := 0; timers := []; next_timer := 0; url_id := None;
     portfolios := []; currentUser := None; portfolioId := None;
     portfolio := None; holdings := []; searchTimeout := None |}.

(** C3 as the specification words it: a stored token goes out as a bearer
    header when [skipAuth] is unset, and with [skipAuth] set no request has
    an [Authorization] header. *)
Definition authorization_as_stated : Prop :=
  ∀ (e : Endpoint) (options : Options) (w : World) (req : Request),
    request_sent (apiCall e options w) = Some req →
    (∀ t, storage w !! TOKEN_KEY = Some t → skipAuth options = false →
          headers req !! "Authorization" = Some ("Bearer " ++ t))
    ∧ (skipAuth options = true → headers req !! "Authorization" = None).

(** The member of a parsed body that [data.k] reads. *)
Definition field (k : string) (data : JSON) : option JSON :=
  match data with
  | JObj ms => member k ms
  | _ => None
  end.

(** C4 as the specification words it: the message is the [error] member if
    the body has one, else the [detail] member, else the fallback. *)
Definition message_as_stated (data : JSON) : JSON :=
  match field "error" data with
  | Some v => v
  | None => match field "detail" data with
            | Some v => v
            | None => JStr "Request failed"
            end
  end.

Definition failure_message_as_stated : Prop :=
  ∀ (status : Z) (data : JSON) (error : Error),
    @settle JSON (Fails status data) = inl error →
    JStr (message error) = message_as_stated data.

(** [data.error || data.detail], [None] when neither is truthy. *)
Definition selected (data : JSON) : option JSON :=
  if truthy (field "error" data) then field "error" data
  else if truthy (field "detail" data) then field "detail" data
       else None.

(** The error made of [data.error || data.detail || 'Request failed']. *)
Definition failure_of (data : JSON) : Error :=
  match selected data with
  | None => new_Error "Request failed"
  | Some v =>
      match to_string v with
      | Some msg => new_Error msg
      | None => not_primitive
      end
  end.

Definition is_console (e : Event) : Prop :=
  match e with
  | ConsoleError _ _ => True
  | _ => False
  end.

(** The request that [loadPortfolioValuation(X)] sends from [w0]. *)
Definition valuation_request (X : Num.t) (w0 : World) : Request :=
  {| endpoint := PORTFOLIO_VALUATION (num_to_string X); method := None;
     headers := apiCall_headers (storage w0 !! TOKEN_KEY) no_options;
     body := None |}.

(** The world in which the answered call ends: on a failure the two console
    entries and [$0.00] in the card if it is there, on a success the
    formatted total in the card if it is there. *)
Definition valuation_outcome (X : Num.t) (w0 later : World)
    (answer : ∀ req, FetchResult (Body (endpoint req))) : World :=
  match settle (answer (valuation_request X w0)) with
  | inl error =>
      let logged :=
        emit (ConsoleError ("Error loading valuation for portfolio "
                              ++ num_to_string X ++ ":") error)
             (emit (ConsoleError "API Error:" error) later) in
      match dom later !! Dashboard.value_id X with
      | Some el =>
          with_dom (insert (Dashboard.value_id X)
                           (set_content (Text "$0.00") el)) logged
      | None => logged
      end
  | inr valuation =>
      match dom later !! Dashboard.value_id X with
      | Some el =>
          with_dom
            (insert (Dashboard.value_id X)
               (set_content
                  (Text ("$" ++ toLocaleString2
                           (or_zero (Valuation.total_value_usd valuation))))
                  el))
            later
      | None => later
      end
  end.

(** The sum of the holdings counts of a list. *)
Definition holdings_total (ps : list Portfolio.t) : Z :=
  foldr (fun p total => Num.val (Portfolio.holdings_count p) + total) 0 ps.

(** The list of the specification's scenario. *)
Definition main_and_alt : list Portfolio.t :=
  [ {| Portfolio.id := #1; Portfolio.name := "Main";
       Portfolio.description := None; Portfolio.is_public := false;
       Portfolio.holdings_count := #3 |};
    {| Portfolio.id := #2; Portfolio.name := "Alt";
       Portfolio.description := None; Portfolio.is_public := false;
       Portfolio.holdings_count := #0 |} ].

(** The request that [loadPortfolios] sends from [w]. *)
Definition portfolios_request (w : World) : Request :=
  {| endpoint := PORTFOLIOS; method := None;
     headers := apiCall_headers (storage w !! TOKEN_KEY) no_options;
     body := None |}.

(** A service that answers the request for the list with the list of the
    scenario, and nothing else. *)
Definition list_answer : ∀ req, FetchResult (Body (endpoint req)) :=
  fun req =>
    match endpoint req as e return FetchResult (Body e) with
    | PORTFOLIOS => Succeeds main_and_alt
    | _ => Rejects {| error_name := "TypeError"; message := "Failed to fetch" |}
    end.

(** The elements that dashboard.js looks up by id or selector. *)
Definition dashboard_ids : list string :=
  ["userInfo"; "portfoliosList"; "portfolioCount"; "coinCount"; "totalValue";
   "totalProfit"; "createPortfolioBtn"; ".close-modal"; "createPortfolioForm";
   "logoutBtn"].

(** The registration form with the password [pw12345] typed in. *)
Definition register_world : World :=
  with_dom (insert "registerPassword" (set_value "pw12345" (fresh (Text ""))))
    (blank {[ "access_token" := "T0" ]}
       ["registerEmail"; "registerUsername"; "registerFullName"; "message"]).

Definition navigations (l : list Event) : list string :=
  omap (fun e => match e with Navigate href => Some href | _ => None end) l.

Definition fetches (l : list Event) : list Request :=
  omap (fun e => match e with Fetch req => Some req | _ => None end) l.

(** The elements that portfolio.js looks up by id or selector. *)
Definition detail_ids : list string :=
  ["userInfo"; "portfolioName"; "portfolioDescription"; "holdingsContainer";
   "totalValue"; "totalCoins"; "totalProfitLoss"; "addCoinBtn"; ".close-modal";
   "coinSearch"; "coinSearchResults"; "addCoinForm"; "logoutBtn"].

(** The page address [portfolio.html?id=7]. *)
Definition detail_world (st : gmap string string) : World :=
  {| storage := st; dom := dom (blank st detail_ids); log := []; now := 0;
     timers := []; next_timer := 0; url_id := Some "7"; portfolios := [];
     currentUser := None; portfolioId := None; portfolio := None;
     holdings := []; searchTimeout := None |}.

(** A service that answers every request with status 401 and a body whose
    [error] is [401 Unauthorized]. *)
Definition always_401 : Server :=
  fun _ _ => Fails 401 (JObj [("error", JStr "401 Unauthorized")]).

Definition signed_in : gmap string string :=
  {[ "access_token" := "T1"; "refresh_token" := "R1" ]}.

(** The redirects to the entry view among the events of a log. *)
Definition entry_redirects (l : list Event) : list Event :=
  List.filter (fun e => match e with
                        | Navigate href => String.eqb href "index.html"
                        | _ => false
                        end) l.

(** The store and the redirects to the entry view are the same in both. *)
Definition keeps (w w' : World) : Prop :=
  storage w' = storage w ∧ entry_redirects (log w') = entry_redirects (log w).

(** [m] neither writes the store nor asks for the entry view, against any
    service, and rejects only with errors of which [P] holds. *)
Definition calm {A} (P : Error → Prop) (m : Async A) : Prop :=
  ∀ srv n w, keeps w (run srv n (m w)).1.2
             ∧ ∀ e, (run srv n (m w)).2 = inl e → P e.

Definition unmarked (e : Error) : Prop :=
  Str.includes "401" (message e) = false.

(** What [clearTimeout(searchTimeout)] leaves of the pending timers. *)
Definition uncancelled (w : World) : list Timer :=
  match searchTimeout w with
  | None => timers w
  | Some h => List.filter (fun t => negb (Nat.eqb (tid t) h)) (timers w)
  end.

(** The world after [clearTimeout(searchTimeout)]. *)
Definition cancelled (w : World) : World :=
  world_of (clearTimeout (searchTimeout w) w).

(** The timers of a world that awaits no search, or just the one that
    [searchTimeout] names, due 300 after [t]. *)
Definition armed (t : nat) (w : World) : Prop :=
  timers w = []
  ∨ ∃ h q, timers w = [ {| tid := h; due := (t + 300)%nat;
                           action := SearchCoins q |} ]
           ∧ searchTimeout w = Some h.

(** After the keystroke [(t, v)]: a search for the trimmed [v] is scheduled
    for [t + 300] if that is 2 characters or more, and nothing otherwise. *)
Definition scheduled (t : nat) (v : string) (w : World) : Prop :=
  if (2 <=? String.length (Str.trim v))%nat
  then ∃ h, timers w = [ {| tid := h; due := (t + 300)%nat;
                            action := SearchCoins (Str.trim v) |} ]
            ∧ searchTimeout w = Some h
  else timers w = [].

(** The results are in the document and, after too short an input, hidden. *)
Definition results_shown (v : string) (w : World) : Prop :=
  ∃ el, dom w !! "coinSearchResults" = Some el
        ∧ ((String.length (Str.trim v) < 2)%nat → "show" ∉ classes el).

(** The keystrokes after one at [prev]: each no earlier than the one before
    it and less than 300 after it. *)
Fixpoint burst (prev : nat) (ks : list (nat * string)) : Prop :=
  match ks with
  | [] => True
  | k :: rest => (prev <= k.1 ∧ k.1 < prev + 300)%nat ∧ burst k.1 rest
  end.

(** * Properties *)

(** ** The request gateway *)

Section Gateway.

Variables (e : Endpoint) (options : Options) (w : World).

Lemma apiCall_sends :
  request_sent (apiCall e options w)
  = Some {| endpoint := e; method := opt_method options;
            headers := apiCall_headers (storage w !! TOKEN_KEY) options;
            body := opt_body options |}.
Proof. reflexivity. Qed.

Lemma apiCall_logs_request :
  ∃ req, request_sent (apiCall e options w) = Some req
         ∧ log (world_of (apiCall e options w)) = (log w ++ [Fetch req])%list.
Proof. eexists; split; reflexivity. Qed.

(** With [skipAuth] the headers are the caller's over the default. *)
Lemma apiCall_headers_skipAuth token :
  skipAuth options = true →
  apiCall_headers token options
  = opt_headers options ∪ {[ "Content-Type" := "application/json" ]}.
Proof.
  intros Hskip. unfold apiCall_headers. rewrite Hskip.
  destruct token as [t|]; [|reflexivity].
  now rewrite andb_false_r.
Qed.

Lemma apiCall_headers_bearer t :
  t ≠ "" → skipAuth options = false →
  apiCall_headers (Some t) options !! "Authorization" = Some ("Bearer " ++ t).
Proof.
  intros Ht Hskip. unfold apiCall_headers. rewrite Hskip.
  destruct t as [|c t]; [congruence|]. simpl.
  apply lookup_insert_eq.
Qed.

End Gateway.

(** The status of a failed response has no part in the error. *)
Lemma settle_ignores_status {B} (s1 s2 : Z) (data : JSON) :
  @settle B (Fails s1 data) = @settle B (Fails s2 data).
Proof. reflexivity. Qed.

(** C3, counterexample: a caller's own [Authorization] header goes out with
    [skipAuth] set, the caller's headers being spread over the default. *)
Lemma skipAuth_keeps_caller_authorization :
  ¬ authorization_as_stated.
Proof.
  intros H.
  destruct (H LOGIN
    {| opt_method := Some "POST"; opt_body := None;
       opt_headers := {[ "Authorization" := "Bearer X" ]};
       skipAuth := true |}
    (blank ∅ []) _ eq_refl) as [_ Hnone].
  specialize (Hnone eq_refl). vm_compute in Hnone. discriminate Hnone.
Qed.

(** C3, amended: when the store holds a non-empty token and [skipAuth] is
    unset, the request carries [Authorization: Bearer <token>]; when
    [skipAuth] is set, [apiCall] adds nothing, whatever is stored: the
    headers are the caller's over the [Content-Type] default, so an
    [Authorization] header is there only if the caller passed one. *)
Theorem apiCall_authorization (e : Endpoint) (options : Options) (w : World) :
  ∃ req, request_sent (apiCall e options w) = Some req ∧
    (∀ t, storage w !! TOKEN_KEY = Some t → t ≠ "" →
          skipAuth options = false →
          headers req !! "Authorization" = Some ("Bearer " ++ t)) ∧
    (skipAuth options = true →
       headers req
       = opt_headers options ∪ {[ "Content-Type" := "application/json" ]}
       ∧ headers req !! "Authorization"
         = opt_headers options !! "Authorization").
Proof.
  eexists; split; [apply apiCall_sends|]. cbn [headers]. split.
  - intros t Hst Ht Hskip. rewrite Hst. now apply apiCall_headers_bearer.
  - intros Hskip. rewrite (apiCall_headers_skipAuth _ _ Hskip). split; [done|].
    rewrite lookup_union, lookup_singleton_ne by done.
    now destruct (opt_headers options !! "Authorization").
Qed.

(** C4, counterexample: an [error] member that is there but empty is passed
    over for [detail]. *)
Lemma empty_error_field_is_skipped :
  ¬ failure_message_as_stated.
Proof.
  intros H.
  specialize (H 400
    (JObj [("error", JStr ""); ("detail", JStr "Email already registered")])
    _ eq_refl).
  vm_compute in H. discriminate H.
Qed.

Lemma settle_fails {B} (status : Z) (data : JSON) :
  data ≠ JNull →
  @settle B (Fails status data) = inl (failure_of data).
Proof.
  intros Hnull. unfold settle, failure_message, prop, failure_of, selected, field.
  destruct data; try congruence; try reflexivity.
  destruct (truthy (member "error" members)) eqn:He.
  - destruct (member "error" members) as [x|]; [|discriminate].
    cbn [from_option]. unfold message_of. now destruct (to_string x).
  - destruct (truthy (member "detail" members)) eqn:Hd; [|reflexivity].
    destruct (member "detail" members) as [x|]; [|discriminate].
    cbn [from_option]. unfold message_of. now destruct (to_string x).
Qed.

(** C4, amended: for a failed response whose body parses to anything but
    [null], [apiCall] takes the body's [error] member if that is truthy,
    else its [detail] member if that is truthy; the error it throws (and
    logs on the way) has the string form [String(v)] of that value [v] as
    its message, or [Request failed] when neither member is truthy; where
    [v] has no string form (an object with a member of its own named
    [toString], by itself or as an item of an array) the error thrown is
    the [TypeError] of the conversion. *)
Theorem apiCall_failure_message
    (e : Endpoint) (options : Options) (w later : World)
    (status : Z) (data : JSON) :
  data ≠ JNull →
  let thrown :=
    match selected data with
    | None => new_Error "Request failed"
    | Some v =>
        match to_string v with
        | Some msg => new_Error msg
        | None => not_primitive
        end
    end in
  resumed (apiCall e options w) (fun _ => Fails status data) later
  = Done (emit (ConsoleError "API Error:" thrown) later) (inl thrown).
Proof.
  intros Hnull. cbn [resumed apiCall]. cbv zeta.
  rewrite (settle_fails status data Hnull). reflexivity.
Qed.

Lemma apiCall_failure_message_witness :
  JObj [("detail", JArr [JObj [("msg", JStr "field required")]])] ≠ JNull
  ∧ resumed (apiCall REGISTER no_options (blank ∅ []))
      (fun _ => Fails 422
         (JObj [("detail", JArr [JObj [("msg", JStr "field required")]])]))
      (blank ∅ [])
    = Done (emit (ConsoleError "API Error:" (new_Error "[object Object]"))
                 (blank ∅ []))
           (inl (new_Error "[object Object]")).
Proof.
  split; [discriminate|].
  apply (apiCall_failure_message
           REGISTER no_options (blank ∅ []) (blank ∅ []) 422
           (JObj [("detail", JArr [JObj [("msg", JStr "field required")]])])).
  discriminate.
Defined.

(** A selected value without a string form: the conversion inside
    [new Error] throws, and that [TypeError] is what [apiCall] logs and
    throws. *)
Example apiCall_error_without_string_form :
  resumed (apiCall ME no_options (blank ∅ []))
    (fun _ => Fails 400 (JObj [("error", JObj [("toString", JNum #1)])]))
    (blank ∅ [])
  = Done (emit (ConsoleError "API Error:" not_primitive) (blank ∅ []))
         (inl not_primitive).
Proof. reflexivity. Qed.

(** A list prints its items separated by commas: [null] as nothing, a
    number by its digits, an object as [[object Object]]. *)
Example to_string_of_list :
  to_string (JArr [JStr "a"; JNull; JNum #(-12); JArr [JBool true; JObj []]])
  = Some "a,,-12,true,[object Object]"
  ∧ to_string (JArr [JStr "a"; JObj [("toString", JNull)]]) = None.
Proof. split; reflexivity. Qed.

(** A [null] body of a failed response: reading [data.error] throws. *)
Lemma apiCall_null_body (e : Endpoint) (options : Options) (w later : World)
    (status : Z) :
  resumed (apiCall e options w) (fun _ => Fails status JNull) later
  = Done (emit (ConsoleError "API Error:" (null_read "error")) later)
         (inl (null_read "error")).
Proof. reflexivity. Qed.

(** A failed response with a non-empty string in [error] or, failing that,
    in [detail]: the message is that string. *)
Lemma settle_error_string {B} status ms s :
  member "error" ms = Some (JStr s) → s ≠ "" →
  @settle B (Fails status (JObj ms)) = inl (new_Error s).
Proof.
  intros Hm Hs. unfold settle, failure_message, prop. rewrite Hm.
  destruct s; [congruence|]. reflexivity.
Qed.

Lemma settle_detail_string {B} status ms s :
  truthy (member "error" ms) = false →
  member "detail" ms = Some (JStr s) → s ≠ "" →
  @settle B (Fails status (JObj ms)) = inl (new_Error s).
Proof.
  intros He Hm Hs. unfold settle, failure_message, prop. rewrite He, Hm.
  destruct s; [congruence|]. reflexivity.
Qed.

Lemma settle_fallback {B} status ms :
  truthy (member "error" ms) = false →
  truthy (member "detail" ms) = false →
  @settle B (Fails status (JObj ms)) = inl (new_Error "Request failed").
Proof.
  intros He Hd. unfold settle, failure_message, prop. now rewrite He, Hd.
Qed.

(** C1, at the failing input: a 401 response whose body says
    [Could not validate credentials] gives an error with that message, and
    [includes('401')] is false of it. *)
Theorem apiCall_401_without_marker (e : Endpoint) (options : Options)
    (w later : World) :
  let data := JObj [("detail", JStr "Could not validate credentials")] in
  ∃ error,
    resumed (apiCall e options w) (fun _ => Fails 401 data) later
    = Done (emit (ConsoleError "API Error:" error) later) (inl error)
    ∧ message error = "Could not validate credentials"
    ∧ Str.includes "401" (message error) = false.
Proof.
  eexists. split; [reflexivity|]. split; reflexivity.
Qed.

(** ** The credential store *)

(** C9: [saveToken(access, refresh)] with a falsy [refresh] stores [access]
    as the access token and writes nothing else: the refresh slot keeps
    what it truthy_str, or stays empty. *)
Theorem saveToken_falsy_refresh (w : World) (access : string)
    (refresh : option string) :
  truthy_str refresh = false →
  ∃ w', saveToken access refresh w = Done w' (inr tt)
        ∧ storage w' = <[ TOKEN_KEY := access ]> (storage w)
        ∧ storage w' !! TOKEN_KEY = Some access
        ∧ storage w' !! "refresh_token" = storage w !! "refresh_token".
Proof.
  intros Hfalsy. unfold saveToken, bind, act. cbn [bind_step].
  rewrite Hfalsy. eexists. split; [reflexivity|].
  cbn [storage with_storage]. split; [reflexivity|]. split.
  - apply lookup_insert_eq.
  - now apply lookup_insert_ne.
Qed.

Lemma saveToken_falsy_refresh_witness :
  truthy_str (Some "") = false
  ∧ ∃ w', saveToken "T1" (Some "")
            (blank {[ "access_token" := "T0"; "refresh_token" := "R0" ]} [])
          = Done w' (inr tt)
      ∧ storage w'
        = <[ TOKEN_KEY := "T1" ]>
            (storage (blank {[ "access_token" := "T0";
                               "refresh_token" := "R0" ]} []))
      ∧ storage w' !! TOKEN_KEY = Some "T1"
      ∧ storage w' !! "refresh_token"
        = storage (blank {[ "access_token" := "T0";
                            "refresh_token" := "R0" ]} []) !! "refresh_token".
Proof.
  split; [reflexivity|].
  apply (saveToken_falsy_refresh
           (blank {[ "access_token" := "T0"; "refresh_token" := "R0" ]} [])
           "T1" (Some "")).
  reflexivity.
Defined.

(** With a truthy [refresh] both slots are written. *)
Lemma saveToken_truthy_refresh (w : World) (access r : string) :
  r ≠ "" →
  ∃ w', saveToken access (Some r) w = Done w' (inr tt)
        ∧ storage w' !! TOKEN_KEY = Some access
        ∧ storage w' !! "refresh_token" = Some r.
Proof.
  intros Hr. unfold saveToken, bind, act. cbn [bind_step].
  assert (Ht : truthy_str (Some r) = true) by (destruct r; [congruence|done]).
  rewrite Ht. eexists. split; [reflexivity|].
  cbn [storage with_storage default]. split.
  - rewrite lookup_insert_ne by done. apply lookup_insert_eq.
  - apply lookup_insert_eq.
Qed.

(** [removeTokens] empties both slots, and does so again on an empty store. *)
Lemma removeTokens_clears (w : World) :
  ∃ w', removeTokens w = Done w' (inr tt)
        ∧ storage w' !! TOKEN_KEY = None
        ∧ storage w' !! "refresh_token" = None.
Proof.
  eexists. split; [reflexivity|]. cbn [storage with_storage]. split.
  - rewrite lookup_delete_ne by done. apply lookup_delete_eq.
  - apply lookup_delete_eq.
Qed.

(** The scenario of the specification: after a login answered with
    [T1] and [R1] the store is authenticated and calls carry [Bearer T1]. *)
Example login_then_bearer :
  let w0 := blank ∅ ["loginEmail"; "loginPassword"; "message"] in
  let answer : Server := fun _ req =>
    match endpoint req as e return FetchResult (Body e) with
    | LOGIN => Succeeds {| access_token := "T1"; refresh_token := Some "R1" |}
    | _ => Rejects (new_Error "offline")
    end in
  let w1 := (run answer 0 (Auth.login w0)).1.2 in
  world_of (isAuthenticated w1) = w1
  ∧ isAuthenticated w1 = Done w1 (inr true)
  ∧ (headers <$> request_sent (apiCall ME no_options w1))
      ≫= (fun h => h !! "Authorization") = Some "Bearer T1".
Proof. vm_compute. repeat split; reflexivity. Qed.

(** ** The dashboard: valuations *)

Lemma Num_val_inj (a b : Num.t) : Num.val a = Num.val b → a = b.
Proof.
  destruct a as [a Ha], b as [b Hb]; cbn. intros ->.
  f_equal. apply Eqdep_dec.UIP_dec, Bool.bool_dec.
Qed.

Lemma value_id_inj (X Y : Num.t) :
  Dashboard.value_id X = Dashboard.value_id Y → X = Y.
Proof.
  unfold Dashboard.value_id, num_to_string, digits. intros H.
  apply String.app_inj in H. apply (inj pretty) in H.
  now apply Num_val_inj.
Qed.

Section Valuation.

Variables (X : Num.t) (w0 later : World).
Variable answer : ∀ req, FetchResult (Body (endpoint req)).

Lemma loadPortfolioValuation_sends :
  request_sent (Dashboard.loadPortfolioValuation X w0)
  = Some (valuation_request X w0).
Proof. reflexivity. Qed.

Lemma loadPortfolioValuation_resumed :
  resumed (Dashboard.loadPortfolioValuation X w0) answer later
  = Done (valuation_outcome X w0 later answer) (inr tt).
Proof.
  unfold Dashboard.loadPortfolioValuation, try_catch, bind, valuation_outcome.
  cbn [resumed apiCall bind_step catch_step].
  change {| endpoint := PORTFOLIO_VALUATION (num_to_string X);
            method := opt_method no_options;
            headers := apiCall_headers (storage w0 !! TOKEN_KEY) no_options;
            body := opt_body no_options |} with (valuation_request X w0).
  destruct (settle (answer (valuation_request X w0))) as [error|valuation].
  - cbn -[Dashboard.value_id]. unfold set_textContent, set_text.
    cbn -[Dashboard.value_id].
    destruct (dom later !! Dashboard.value_id X) as [el|] eqn:Hel;
      cbn -[Dashboard.value_id].
    + rewrite Hel. reflexivity.
    + reflexivity.
  - cbn -[Dashboard.value_id]. unfold set_textContent, set_text.
    destruct (dom later !! Dashboard.value_id X) as [el|] eqn:Hel;
      cbn -[Dashboard.value_id].
    + rewrite Hel. reflexivity.
    + reflexivity.
Qed.

Lemma valuation_outcome_frame (id : string) :
  id ≠ Dashboard.value_id X →
  dom (valuation_outcome X w0 later answer) !! id = dom later !! id.
Proof.
  intros Hid. unfold valuation_outcome.
  destruct (settle (answer (valuation_request X w0)));
    destruct (dom later !! Dashboard.value_id X); cbn [dom with_dom emit];
    try reflexivity; now rewrite lookup_insert_ne.
Qed.

Lemma valuation_outcome_storage :
  storage (valuation_outcome X w0 later answer) = storage later.
Proof.
  unfold valuation_outcome.
  destruct (settle (answer (valuation_request X w0)));
    destruct (dom later !! Dashboard.value_id X); reflexivity.
Qed.

Lemma valuation_outcome_log :
  log (valuation_outcome X w0 later answer)
  = (log later
       ++ match settle (answer (valuation_request X w0)) with
          | inl error =>
              [ConsoleError "API Error:" error;
               ConsoleError ("Error loading valuation for portfolio "
                               ++ num_to_string X ++ ":") error]
          | inr _ => []
          end)%list.
Proof.
  unfold valuation_outcome.
  destruct (settle (answer (valuation_request X w0)));
    destruct (dom later !! Dashboard.value_id X); cbn [log with_dom emit];
    rewrite <- ?app_assoc, ?app_nil_r; reflexivity.
Qed.

(** C6: when the valuation of portfolio [X] is answered, whatever else has
    happened since it was asked for ([later] is any world), the call ends
    without an error; after a failure the card of [X], if it is still in
    the document, shows [$0.00]; every other element, the card of any other
    portfolio among them, is as it was. A success writes nothing to the
    console, a failure its two entries, that of [apiCall] and that of the
    handler. With the card gone, a success leaves the world exactly as it
    was, and a failure adds those two console entries and nothing else. *)
Theorem valuation_failure_is_isolated :
  ∃ w', resumed (Dashboard.loadPortfolioValuation X w0) answer later
        = Done w' (inr tt)
    ∧ storage w' = storage later
    ∧ (∀ error el,
         settle (answer (valuation_request X w0)) = inl error →
         dom later !! Dashboard.value_id X = Some el →
         dom w' = <[ Dashboard.value_id X := set_content (Text "$0.00") el ]>
                    (dom later))
    ∧ (∀ id, id ≠ Dashboard.value_id X → dom w' !! id = dom later !! id)
    ∧ (∀ Y, Y ≠ X →
         dom w' !! Dashboard.value_id Y = dom later !! Dashboard.value_id Y)
    ∧ log w'
      = (log later
           ++ match settle (answer (valuation_request X w0)) with
              | inl error =>
                  [ConsoleError "API Error:" error;
                   ConsoleError ("Error loading valuation for portfolio "
                                   ++ num_to_string X ++ ":") error]
              | inr _ => []
              end)%list
    ∧ (dom later !! Dashboard.value_id X = None →
         match settle (answer (valuation_request X w0)) with
         | inr _ => w' = later
         | inl error =>
             w' = emit (ConsoleError ("Error loading valuation for portfolio "
                                        ++ num_to_string X ++ ":") error)
                       (emit (ConsoleError "API Error:" error) later)
         end).
Proof.
  exists (valuation_outcome X w0 later answer).
  split; [apply loadPortfolioValuation_resumed|].
  split; [apply valuation_outcome_storage|]. split; [|split; [|split; [|split]]].
  - intros error el Hfail Hel. unfold valuation_outcome.
    rewrite Hfail, Hel. reflexivity.
  - apply valuation_outcome_frame.
  - intros Y HY. apply valuation_outcome_frame.
    intros Heq. apply HY. now apply value_id_inj.
  - apply valuation_outcome_log.
  - intros Hgone. unfold valuation_outcome. rewrite Hgone.
    now destruct (settle (answer (valuation_request X w0))).
Qed.

End Valuation.

(** Two cards, the valuation of the first failing and that of the second
    answered with 1234: the same cards in either order of arrival. *)
Example valuations_in_either_order :
  let answer : ∀ req, FetchResult (Body (endpoint req)) := fun req =>
    match endpoint req as e return FetchResult (Body e) with
    | PORTFOLIO_VALUATION "2" =>
        Succeeds {| Valuation.total_value_usd := Some #1234;
                    Valuation.holdings := None |}
    | _ => Fails 500 (JObj [("detail", JStr "Internal Server Error")])
    end in
  let w := blank ∅ ["portfolio-value-1"; "portfolio-value-2"] in
  let arrives X w' :=
    world_of (resumed (Dashboard.loadPortfolioValuation X w) answer w') in
  dom (arrives #2 (arrives #1 w)) = dom (arrives #1 (arrives #2 w))
  ∧ content <$> dom (arrives #2 (arrives #1 w)) !! "portfolio-value-1"
    = Some (Text "$0.00")
  ∧ content <$> dom (arrives #2 (arrives #1 w)) !! "portfolio-value-2"
    = Some (Text "$1,234.00").
Proof. vm_compute. repeat split; reflexivity. Qed.

(** ** The dashboard: aggregate statistics *)

(** Within the safe integers the sum of two doubles is their sum. *)
Lemma Num_add_exact (a b : Z) : Z.abs (a + b) ≤ 2 ^ 53 → Num.add a b = a + b.
Proof.
  intros H. unfold Num.add, Num.fl. cbv zeta.
  destruct (Z.leb_spec (Z.abs (a + b)) (2 ^ 53)); [reflexivity|lia].
Qed.

Lemma Num_safe_bounds (n : Z) : Num.safe n = true ↔ - 2 ^ 53 < n < 2 ^ 53.
Proof.
  unfold Num.safe. rewrite andb_true_iff, !Z.ltb_lt. reflexivity.
Qed.

(** Two counts that are safe, with a sum that is not: the sum the page
    shows is the double next to it. *)
Example add_rounds_to_even :
  Num.add (2 ^ 52) (2 ^ 52 + 1) = 2 ^ 53
  ∧ Num.add (2 ^ 53) 3 = 2 ^ 53 + 4
  ∧ Num.add (- 2 ^ 53) (- 1) = - 2 ^ 53.
Proof. vm_compute. repeat split; reflexivity. Qed.

Lemma reduce_holdings (ps : list Portfolio.t) (start : Z) :
  0 ≤ start →
  Forall (fun p => 0 ≤ Num.val (Portfolio.holdings_count p)) ps →
  start + holdings_total ps < 2 ^ 53 →
  fold_left (fun sum p => Num.add sum (Num.val (Portfolio.holdings_count p)))
            ps start
  = start + holdings_total ps.
Proof.
  unfold holdings_total. revert start.
  induction ps as [|p ps IH]; intros start Hstart Hpos Hsum;
    cbn [fold_left foldr] in *.
  - lia.
  - apply Forall_cons in Hpos as [Hp Hps].
    assert (Hrest :
      0 ≤ foldr (fun p total => Num.val (Portfolio.holdings_count p) + total)
                0 ps).
    { clear -Hps. induction Hps; cbn [foldr]; lia. }
    rewrite Num_add_exact by lia. rewrite IH; [lia|lia|exact Hps|lia].
Qed.

Lemma set_text_present (id : string) (c : Content) (w : World) (el : Element) :
  dom w !! id = Some el →
  set_text id c w = Done (with_dom (insert id (set_content c el)) w) (inr tt).
Proof. intros H. unfold set_text. now rewrite H. Qed.

Lemma set_textContent_present (id s : string) (w : World) (el : Element) :
  dom w !! id = Some el →
  set_textContent id s w
  = Done (with_dom (insert id (set_content (Text s) el)) w) (inr tt).
Proof. apply set_text_present. Qed.

Lemma set_innerHTML_present (id : string) (c : Content)
    (made : list (string * Element)) (w : World) (el : Element) :
  dom w !! id = Some el →
  set_innerHTML id c made w
  = Done (with_dom (fun _ =>
            <[ id := {| content := c; classes := classes el;
                        value := value el;
                        children := List.map fst made |} ]>
              (foldr (fun kv d => <[ kv.1 := kv.2 ]> d)
                     (foldr delete (dom w) (children el)) made)) w)
         (inr tt).
Proof. intros H. unfold set_innerHTML. now rewrite H. Qed.

Lemma lookup_foldr_delete {V} (m : gmap string V) (l : list string)
    (k : string) :
  foldr delete m l !! k = if bool_decide (k ∈ l) then None else m !! k.
Proof.
  induction l as [|x l IH]; cbn [foldr].
  - reflexivity.
  - destruct (decide (x = k)) as [->|Hne].
    + rewrite lookup_delete_eq. rewrite bool_decide_eq_true_2; [done|].
      apply elem_of_cons. now left.
    + rewrite lookup_delete_ne by exact Hne. rewrite IH.
      destruct (bool_decide (k ∈ l)) eqn:Hin.
      * apply bool_decide_eq_true in Hin.
        rewrite bool_decide_eq_true_2; [done|]. apply elem_of_cons. now right.
      * apply bool_decide_eq_false in Hin.
        rewrite bool_decide_eq_false_2; [done|].
        intros Hc. apply elem_of_cons in Hc. destruct Hc; congruence.
Qed.

(** The cards that [renderPortfolios] makes stand under the ids of the
    values, and under no other. *)
Lemma lookup_cards_other (ps : list Portfolio.t) (d : gmap string Element)
    (k : string) :
  (∀ X, k ≠ Dashboard.value_id X) →
  foldr (fun kv m => <[ kv.1 := kv.2 ]> m) d
        (List.map (fun p => (Dashboard.value_id (Portfolio.id p),
                             fresh (Text "Loading..."))) ps) !! k
  = d !! k.
Proof.
  intros Hk. induction ps as [|q ps IH]; [reflexivity|].
  cbn [List.map foldr fst snd].
  rewrite lookup_insert_ne by (intros Heq; now apply (Hk (Portfolio.id q))).
  exact IH.
Qed.

(** [renderPortfolios] asks for every valuation and waits for none. *)
Lemma forEach_valuations (ps : list Portfolio.t) :
  ∀ u, ∃ u',
    forEach (fun p => detach (Dashboard.loadPortfolioValuation (Portfolio.id p)))
            ps u
    = Done u' (inr tt)
    ∧ log u'
      = (log u ++ List.map (fun p => Fetch (valuation_request (Portfolio.id p) u))
                           ps)%list
    ∧ dom u' = dom u ∧ storage u' = storage u ∧ portfolios u' = portfolios u.
Proof.
  induction ps as [|p ps IH]; intros u; cbn [forEach List.map].
  - eexists. split; [reflexivity|]. now rewrite app_nil_r.
  - unfold bind. cbn [detach Dashboard.loadPortfolioValuation try_catch bind
                      apiCall bind_step catch_step].
    destruct (IH (emit (Fetch (valuation_request (Portfolio.id p) u)) u))
      as (u' & Hrun & Hlog & Hdom & Hst & Hps).
    exists u'. split; [exact Hrun|]. rewrite Hlog, Hdom, Hst, Hps.
    cbn [log emit dom storage portfolios]. repeat split.
    rewrite <- app_assoc. reflexivity.
Qed.

(** What [updateDashboardStats] writes, with its four elements in the
    document. *)
Lemma updateDashboardStats_present (w : World) (e1 e2 e3 e4 : Element) :
  dom w !! "portfolioCount" = Some e1 →
  dom w !! "coinCount" = Some e2 →
  dom w !! "totalValue" = Some e3 →
  dom w !! "totalProfit" = Some e4 →
  Dashboard.updateDashboardStats w
  = Done
      (with_dom
         (fun d =>
            <[ "totalProfit" := set_content (Text "$0.00") e4 ]>
              (<[ "totalValue" := set_content (Text "$0.00") e3 ]>
                 (<[ "coinCount" :=
                       set_content
                         (number_text
                            (fold_left
                               (fun sum p =>
                                  Num.add sum
                                    (Num.val (Portfolio.holdings_count p)))
                               (portfolios w) 0)) e2 ]>
                    (<[ "portfolioCount" :=
                          set_content
                            (number_text (Z.of_nat (length (portfolios w))))
                            e1 ]> d)))) w)
      (inr tt).
Proof.
  intros H1 H2 H3 H4.
  unfold Dashboard.updateDashboardStats, bind, read. cbn [bind_step].
  rewrite (set_text_present _ _ _ _ H1). cbn [bind_step].
  rewrite (set_text_present "coinCount" _ _ e2)
    by (cbn [dom with_dom]; rewrite lookup_insert_ne by discriminate;
        exact H2).
  cbn [bind_step].
  rewrite (set_textContent_present "totalValue" _ _ e3)
    by (cbn [dom with_dom]; rewrite !lookup_insert_ne by discriminate;
        exact H3).
  cbn [bind_step].
  rewrite (set_textContent_present "totalProfit" _ _ e4)
    by (cbn [dom with_dom]; rewrite !lookup_insert_ne by discriminate;
        exact H4).
  reflexivity.
Qed.

(** C8: when the request for the list is answered with a list [ps] of
    portfolios (the four statistics elements and the list element being in
    the document, the two counts not inside the list element), with
    [holdings_count] fields that are not negative and sum to less than 2^53,
    [loadPortfolios] ends without an error, the portfolio count shows the
    length of [ps] and the coin count the sum of the [holdings_count] fields
    of [ps]. By then the valuations have only been asked for, one request
    for each portfolio, and none is answered; and no answer to a valuation
    request, whenever it arrives, touches either count. *)
Theorem dashboard_stats_from_list
    (w later : World) (answer : ∀ req, FetchResult (Body (endpoint req)))
    (ps : list Portfolio.t) (container : Element) :
  answer (portfolios_request w) = Succeeds ps →
  Forall (fun p => 0 ≤ Num.val (Portfolio.holdings_count p)) ps →
  holdings_total ps < 2 ^ 53 →
  Z.of_nat (length ps) < 2 ^ 53 →
  is_Some (dom later !! "portfolioCount") →
  is_Some (dom later !! "coinCount") →
  is_Some (dom later !! "totalValue") →
  is_Some (dom later !! "totalProfit") →
  dom later !! "portfoliosList" = Some container →
  "portfolioCount" ∉ children container →
  "coinCount" ∉ children container →
  ∃ w', resumed (Dashboard.loadPortfolios w) answer later = Done w' (inr tt)
    ∧ portfolios w' = ps
    ∧ content <$> dom w' !! "portfolioCount"
      = Some (Text (digits (Z.of_nat (length ps))))
    ∧ content <$> dom w' !! "coinCount"
      = Some (Text (digits (holdings_total ps)))
    ∧ log w'
      = (log later
           ++ List.map
                (fun p => Fetch (valuation_request (Portfolio.id p) later))
                ps)%list
    ∧ ∀ X w0 answer' later',
        let after :=
          world_of (resumed (Dashboard.loadPortfolioValuation X w0)
                            answer' later') in
        dom after !! "portfolioCount" = dom later' !! "portfolioCount"
        ∧ dom after !! "coinCount" = dom later' !! "coinCount".
Proof.
  intros Hans Hpos Hsum Hlen [e1 H1] [e2 H2] [e3 H3] [e4 H4] Hlist Hc1 Hc2.
  assert (Hsafe1 : Num.safe (Z.of_nat (length ps)) = true)
    by (apply Num_safe_bounds; lia).
  assert (Htotal : 0 ≤ holdings_total ps).
  { clear -Hpos. unfold holdings_total. induction Hpos; cbn [foldr]; lia. }
  assert (Hsafe2 : Num.safe (holdings_total ps) = true)
    by (apply Num_safe_bounds; lia).
  unfold Dashboard.loadPortfolios, try_catch, bind.
  cbn [resumed apiCall bind_step catch_step].
  change {| endpoint := PORTFOLIOS; method := opt_method no_options;
            headers := apiCall_headers (storage w !! TOKEN_KEY) no_options;
            body := opt_body no_options |} with (portfolios_request w).
  rewrite Hans. cbn [settle bind_step act].
  rewrite (updateDashboardStats_present _ e1 e2 e3 e4) by assumption.
  cbn [bind_step catch_step portfolios with_dashboard].
  rewrite (reduce_holdings ps 0) by (try assumption; lia).
  rewrite Z.add_0_l. unfold number_text. rewrite Hsafe1, Hsafe2.
  unfold Dashboard.renderPortfolios, bind, read.
  cbn [bind_step catch_step portfolios with_dashboard with_dom].
  assert (Hids : ∀ k, k = "portfolioCount" ∨ k = "coinCount" →
                      ∀ X, k ≠ Dashboard.value_id X)
    by (intros k [->| ->] X; unfold Dashboard.value_id; discriminate).
  destruct ps as [|p ps].
  - rewrite (set_innerHTML_present _ _ _ _ container)
      by (cbn [dom with_dom with_dashboard];
          rewrite !lookup_insert_ne by discriminate; exact Hlist).
    cbn [catch_step]. eexists. split; [reflexivity|].
    cbn [dom with_dom with_dashboard log portfolios List.map foldr length].
    split; [reflexivity|]. split; [|split; [|split]].
    + rewrite lookup_insert_ne by discriminate.
      rewrite lookup_foldr_delete, bool_decide_eq_false_2 by exact Hc1.
      rewrite !lookup_insert_ne by discriminate. now rewrite lookup_insert_eq.
    + rewrite lookup_insert_ne by discriminate.
      rewrite lookup_foldr_delete, bool_decide_eq_false_2 by exact Hc2.
      rewrite !lookup_insert_ne by discriminate. now rewrite lookup_insert_eq.
    + now rewrite app_nil_r.
    + intros X w0 answer' later'.
      rewrite loadPortfolioValuation_resumed. cbn [world_of].
      rewrite !valuation_outcome_frame; [done|discriminate|discriminate].
  - rewrite (set_innerHTML_present _ _ _ _ container)
      by (cbn [dom with_dom with_dashboard];
          rewrite !lookup_insert_ne by discriminate; exact Hlist).
    cbn [bind_step].
    match goal with |- ∃ w', catch_step (forEach _ _ ?u) _ = _ ∧ _ =>
      destruct (forEach_valuations (p :: ps) u)
        as (u' & Hrun & Hlog & Hdom & _ & Hps)
    end.
    rewrite Hrun. cbn [catch_step]. exists u'. split; [reflexivity|].
    rewrite Hlog, Hdom, Hps.
    cbn [dom with_dom with_dashboard log portfolios].
    split; [reflexivity|]. split; [|split; [|split]].
    + rewrite lookup_insert_ne by discriminate.
      rewrite lookup_cards_other by (apply Hids; now left).
      rewrite lookup_foldr_delete, bool_decide_eq_false_2 by exact Hc1.
      rewrite !lookup_insert_ne by discriminate. now rewrite lookup_insert_eq.
    + rewrite lookup_insert_ne by discriminate.
      rewrite lookup_cards_other by (apply Hids; now right).
      rewrite lookup_foldr_delete, bool_decide_eq_false_2 by exact Hc2.
      rewrite !lookup_insert_ne by discriminate. now rewrite lookup_insert_eq.
    + reflexivity.
    + intros X w0 answer' later'.
      rewrite loadPortfolioValuation_resumed. cbn [world_of].
      rewrite !valuation_outcome_frame; [done|discriminate|discriminate].
Qed.

Lemma dashboard_stats_from_list_witness :
  (list_answer (portfolios_request (blank signed_in dashboard_ids))
   = Succeeds main_and_alt
   ∧ Forall (fun p => 0 ≤ Num.val (Portfolio.holdings_count p)) main_and_alt
   ∧ holdings_total main_and_alt < 2 ^ 53
   ∧ Z.of_nat (length main_and_alt) < 2 ^ 53
   ∧ is_Some (dom (blank signed_in dashboard_ids) !! "portfolioCount")
   ∧ is_Some (dom (blank signed_in dashboard_ids) !! "coinCount")
   ∧ is_Some (dom (blank signed_in dashboard_ids) !! "totalValue")
   ∧ is_Some (dom (blank signed_in dashboard_ids) !! "totalProfit")
   ∧ dom (blank signed_in dashboard_ids) !! "portfoliosList"
     = Some (fresh (Text ""))
   ∧ ("portfolioCount" ∉ children (fresh (Text "")))
   ∧ ("coinCount" ∉ children (fresh (Text ""))))
  ∧ ∃ w', resumed (Dashboard.loadPortfolios (blank signed_in dashboard_ids))
            list_answer (blank signed_in dashboard_ids)
          = Done w' (inr tt)
      ∧ portfolios w' = main_and_alt
      ∧ content <$> dom w' !! "portfolioCount" = Some (Text "2")
      ∧ content <$> dom w' !! "coinCount" = Some (Text "3").
Proof.
  assert (H0 : list_answer (portfolios_request (blank signed_in dashboard_ids))
               = Succeeds main_and_alt) by reflexivity.
  assert (Hpos : Forall (fun p => 0 ≤ Num.val (Portfolio.holdings_count p))
                        main_and_alt)
    by (repeat constructor; cbn; lia).
  assert (Hsum : holdings_total main_and_alt < 2 ^ 53) by (vm_compute; reflexivity).
  assert (Hlen : Z.of_nat (length main_and_alt) < 2 ^ 53)
    by (vm_compute; reflexivity).
  assert (H1 : is_Some (dom (blank signed_in dashboard_ids) !! "portfolioCount"))
    by (vm_compute; eexists; reflexivity).
  assert (H2 : is_Some (dom (blank signed_in dashboard_ids) !! "coinCount"))
    by (vm_compute; eexists; reflexivity).
  assert (H3 : is_Some (dom (blank signed_in dashboard_ids) !! "totalValue"))
    by (vm_compute; eexists; reflexivity).
  assert (H4 : is_Some (dom (blank signed_in dashboard_ids) !! "totalProfit"))
    by (vm_compute; eexists; reflexivity).
  assert (H5 : dom (blank signed_in dashboard_ids) !! "portfoliosList"
               = Some (fresh (Text ""))) by (vm_compute; reflexivity).
  assert (H6 : "portfolioCount" ∉ children (fresh (Text "")))
    by (cbn; apply not_elem_of_nil).
  assert (H7 : "coinCount" ∉ children (fresh (Text "")))
    by (cbn; apply not_elem_of_nil).
  split; [repeat split; assumption|].
  destruct (dashboard_stats_from_list
              (blank signed_in dashboard_ids) (blank signed_in dashboard_ids)
              list_answer main_and_alt (fresh (Text ""))
              H0 Hpos Hsum Hlen H1 H2 H3 H4 H5 H6 H7)
    as (w' & Hrun & Hps & Hcount & Hcoins & _).
  exists w'. repeat split; assumption.
Defined.

(** The scenario run through the whole page, every valuation failing: the
    counts are 2 and 3 all the same. *)
Example dashboard_scenario_counts :
  let srv : Server := fun _ req =>
    match endpoint req as e return FetchResult (Body e) with
    | ME => Succeeds {| username := "ann"; email := "a@x.com" |}
    | PORTFOLIOS => Succeeds main_and_alt
    | _ => Rejects {| error_name := "TypeError"; message := "Failed to fetch" |}
    end in
  let w0 := blank {[ "access_token" := "T1" ]} dashboard_ids in
  let w := (run srv 0 (Dashboard.page w0)).1.2 in
  content <$> dom w !! "portfolioCount" = Some (Text "2")
  ∧ content <$> dom w !! "coinCount" = Some (Text "3")
  ∧ content <$> dom w !! "portfolio-value-1" = Some (Text "Loading...").
Proof. vm_compute. repeat split; reflexivity. Qed.

(** Two safe counts whose sum is not safe: the page shows the double next
    to the sum, not the sum. *)
Example dashboard_counts_beyond_safe :
  let big : list Portfolio.t :=
    [ {| Portfolio.id := #1; Portfolio.name := "Main";
         Portfolio.description := None; Portfolio.is_public := false;
         Portfolio.holdings_count := #4503599627370496 |};
      {| Portfolio.id := #2; Portfolio.name := "Alt";
         Portfolio.description := None; Portfolio.is_public := false;
         Portfolio.holdings_count := #4503599627370497 |} ] in
  let w := with_dashboard big None (blank ∅ dashboard_ids) in
  content <$> dom (world_of (Dashboard.updateDashboardStats w)) !! "coinCount"
  = Some (Number 9007199254740992).
Proof. vm_compute. reflexivity. Qed.

(** ** Registration *)

(** C10: when the registration form is submitted with a password of fewer
    than 8 characters (the form's four fields and the message element being
    in the document), the handler ends at once: nothing is logged, so no
    request is sent and none is pending; the store is as it was; and the
    message element shows the error text with the classes [message error]. *)
Theorem register_short_password (w : World) (password msgEl : Element) :
  is_Some (dom w !! "registerEmail") →
  is_Some (dom w !! "registerUsername") →
  is_Some (dom w !! "registerFullName") →
  dom w !! "registerPassword" = Some password →
  (String.length (value password) < 8)%nat →
  dom w !! "message" = Some msgEl →
  ∃ w', Auth.register w = Done w' (inr tt)
    ∧ log w' = log w
    ∧ storage w' = storage w
    ∧ timers w' = timers w
    ∧ dom w'
      = <[ "message" :=
             set_classes ["message"; "error"]
               (set_content (Text "Password must be at least 8 characters")
                            msgEl) ]> (dom w).
Proof.
  intros [e1 H1] [e2 H2] [e3 H3] H4 Hshort Hm.
  unfold Auth.register, bind, get_value.
  rewrite H1. cbn [bind_step]. rewrite H2. cbn [bind_step].
  rewrite H3. cbn [bind_step]. rewrite H4. cbn [bind_step].
  apply Nat.ltb_lt in Hshort. rewrite Hshort.
  unfold Auth.showMessage, bind, set_textContent, set_text, set_className.
  rewrite Hm. cbn [bind_step dom with_dom]. rewrite lookup_insert_eq.
  eexists. split; [reflexivity|].
  cbn [log storage timers dom with_dom]. repeat split.
  now rewrite insert_insert_eq.
Qed.

Lemma register_short_password_witness :
  (is_Some (dom register_world !! "registerEmail")
   ∧ is_Some (dom register_world !! "registerUsername")
   ∧ is_Some (dom register_world !! "registerFullName")
   ∧ dom register_world !! "registerPassword"
     = Some (set_value "pw12345" (fresh (Text "")))
   ∧ (String.length (value (set_value "pw12345" (fresh (Text "")))) < 8)%nat
   ∧ dom register_world !! "message" = Some (fresh (Text "")))
  ∧ ∃ w', Auth.register register_world = Done w' (inr tt)
      ∧ log w' = log register_world
      ∧ storage w' = storage register_world
      ∧ timers w' = timers register_world
      ∧ dom w'
        = <[ "message" :=
               set_classes ["message"; "error"]
                 (set_content (Text "Password must be at least 8 characters")
                              (fresh (Text ""))) ]> (dom register_world).
Proof.
  assert (H1 : is_Some (dom register_world !! "registerEmail"))
    by (vm_compute; eexists; reflexivity).
  assert (H2 : is_Some (dom register_world !! "registerUsername"))
    by (vm_compute; eexists; reflexivity).
  assert (H3 : is_Some (dom register_world !! "registerFullName"))
    by (vm_compute; eexists; reflexivity).
  assert (H4 : dom register_world !! "registerPassword"
               = Some (set_value "pw12345" (fresh (Text ""))))
    by (vm_compute; reflexivity).
  assert (H5 : (String.length (value (set_value "pw12345" (fresh (Text ""))))
                < 8)%nat) by (cbn; lia).
  assert (H6 : dom register_world !! "message" = Some (fresh (Text "")))
    by (vm_compute; reflexivity).
  split; [repeat split; assumption|].
  exact (register_short_password register_world _ _ H1 H2 H3 H4 H5 H6).
Defined.

(** With 8 characters the request goes out. *)
Example register_long_password :
  let w := with_dom (insert "registerPassword"
                       (set_value "pw123456" (fresh (Text ""))))
                    register_world in
  (endpoint <$> request_sent (Auth.register w)) = Some REGISTER.
Proof. vm_compute. reflexivity. Qed.

(** ** The session guard *)

(** C5, at the failing input: a protected page loaded with an empty store.
    The check asks for the entry view and the module goes on to [init()],
    which sends the request for the user before it first gives up control:
    a fetch after the redirect, on either page. *)
Theorem unauthenticated_load_still_fetches :
  let me := {| endpoint := ME; method := None;
               headers := {[ "Content-Type" := "application/json" ]};
               body := None |} in
  isAuthenticated (blank ∅ dashboard_ids)
  = Done (blank ∅ dashboard_ids) (inr false)
  ∧ log (world_of (Dashboard.page (blank ∅ dashboard_ids)))
    = [Navigate "index.html"; Fetch me]
  ∧ request_sent (Dashboard.page (blank ∅ dashboard_ids)) = Some me
  ∧ log (world_of (Detail.page (detail_world ∅)))
    = [Navigate "index.html"; Fetch me]
  ∧ request_sent (Detail.page (detail_world ∅)) = Some me.
Proof. vm_compute. repeat split; reflexivity. Qed.

(** Whatever else the world holds: without a token the dashboard module
    logs the redirect and then the request for the user. *)
Lemma unauthenticated_dashboard_prefix (w : World) :
  truthy_str (storage w !! TOKEN_KEY) = false →
  log (world_of (Dashboard.page w))
  = (log w ++ [Navigate "index.html";
               Fetch {| endpoint := ME; method := None;
                        headers := apiCall_headers (storage w !! TOKEN_KEY)
                                     no_options;
                        body := None |}])%list.
Proof.
  intros Hnone.
  unfold Dashboard.page, Dashboard.guard, isAuthenticated, getToken, bind, read.
  cbn [bind_step ret]. rewrite Hnone. cbn.
  now rewrite <- app_assoc.
Qed.

(** With a token the check lets the page through without a redirect. *)
Lemma authenticated_dashboard_prefix (w : World) :
  truthy_str (storage w !! TOKEN_KEY) = true →
  navigations (log (world_of (Dashboard.page w))) = navigations (log w).
Proof.
  intros Hsome.
  unfold Dashboard.page, Dashboard.guard, isAuthenticated, getToken, bind, read.
  cbn [bind_step ret]. rewrite Hsome. cbn.
  unfold navigations. rewrite omap_app. cbn. now rewrite app_nil_r.
Qed.

(** C2, at the failing input: both pages initialized with a token in the
    store against a service that answers 401 to everything, the message of
    every error containing [401]. Each step catches the error of its own
    request, so none reaches the handler of [init]: the tokens stay in the
    store, the dashboard asks for no redirect at all, and the detail page
    asks for the dashboard instead of the entry view. *)
Theorem init_swallows_401 :
  let d := run always_401 0 (Dashboard.init (blank signed_in dashboard_ids)) in
  let p := run always_401 0 (Detail.page (detail_world signed_in)) in
  let raised := ConsoleError "API Error:" (new_Error "401 Unauthorized") in
  Str.includes "401" "401 Unauthorized" = true
  ∧ (d.2 = inr tt
     ∧ raised ∈ log d.1.2
     ∧ storage d.1.2 = signed_in
     ∧ navigations (log d.1.2) = [])
  ∧ (p.2 = inr tt
     ∧ raised ∈ log p.1.2
     ∧ storage p.1.2 = signed_in
     ∧ navigations (log p.1.2) = ["dashboard.html"]).
Proof.
  vm_compute. repeat split; try reflexivity.
  - apply list_elem_of_In. cbn. tauto.
  - apply list_elem_of_In. cbn. tauto.
Qed.

(** *** The handler of [init] is never reached with a 401 *)

Lemma run_bind {A B} (srv : Server) (n : nat) (s : Step A) (f : A → Async B) :
  run srv n (bind_step s f)
  = match run srv n s with
    | (n1, w1, inr a) => run srv n1 (f a w1)
    | (n1, w1, inl e) => (n1, w1, inl e)
    end.
Proof.
  revert n. induction s as [w [e|a]|w req k IH]; intros n; cbn; auto.
Qed.

Lemma run_catch {A} (srv : Server) (n : nat) (s : Step A)
    (h : Error → Async A) :
  run srv n (catch_step s h)
  = match run srv n s with
    | (n1, w1, inr a) => (n1, w1, inr a)
    | (n1, w1, inl e) => run srv n1 (h e w1)
    end.
Proof.
  revert n. induction s as [w [e|a]|w req k IH]; intros n; cbn; auto.
Qed.

Lemma keeps_refl w : keeps w w.
Proof. split; reflexivity. Qed.

Lemma keeps_trans w1 w2 w3 : keeps w1 w2 → keeps w2 w3 → keeps w1 w3.
Proof. intros [H1 H2] [H3 H4]. split; congruence. Qed.

Lemma keeps_emit w ev :
  (∀ href, ev = Navigate href → href ≠ "index.html") → keeps w (emit ev w).
Proof.
  intros Hev. split; [reflexivity|]. cbn [log emit]. unfold entry_redirects.
  rewrite List.filter_app. cbn.
  destruct ev; try now rewrite app_nil_r.
  destruct (String.eqb href "index.html") eqn:Heq.
  - apply String.eqb_eq in Heq. now destruct (Hev href eq_refl).
  - now rewrite app_nil_r.
Qed.

Lemma keeps_with_dom w f : keeps w (with_dom f w).
Proof. split; reflexivity. Qed.

Section Calm.

Context {A B : Type}.

Lemma calm_weaken (P Q : Error → Prop) (m : Async A) :
  (∀ e, P e → Q e) → calm P m → calm Q m.
Proof.
  intros HPQ Hm srv n w. destruct (Hm srv n w) as [Hk He]. split; auto.
Qed.

Lemma calm_bind (P : Error → Prop) (m : Async A) (f : A → Async B) :
  calm P m → (∀ a, calm P (f a)) → calm P (bind m f).
Proof.
  intros Hm Hf srv n w. unfold bind. rewrite run_bind.
  destruct (Hm srv n w) as [Hk He].
  destruct (run srv n (m w)) as [[n1 w1] [e|a]]; cbn in *.
  - split; [exact Hk|]. intros e' [= <-]. now apply He.
  - destruct (Hf a srv n1 w1) as [Hk' He']. split; [|exact He'].
    eapply keeps_trans; eassumption.
Qed.

Lemma calm_try_catch (P Q : Error → Prop) (m : Async A) (h : Error → Async A) :
  calm Q m → (∀ e, Q e → calm P (h e)) → calm P (try_catch m h).
Proof.
  intros Hm Hh srv n w. unfold try_catch. rewrite run_catch.
  destruct (Hm srv n w) as [Hk He].
  destruct (run srv n (m w)) as [[n1 w1] [e|a]]; cbn in *.
  - destruct (Hh e (He e eq_refl) srv n1 w1) as [Hk' He']. split; [|exact He'].
    eapply keeps_trans; eassumption.
  - split; [exact Hk|]. intros e' [=].
Qed.

Lemma calm_ret (P : Error → Prop) (a : A) : calm P (ret a).
Proof. intros srv n w. cbn. split; [apply keeps_refl|]. intros e [=]. Qed.

Lemma calm_read (P : Error → Prop) (f : World → A) : calm P (read f).
Proof. intros srv n w. cbn. split; [apply keeps_refl|]. intros e [=]. Qed.

End Calm.

Lemma calm_act (P : Error → Prop) (f : World → World) :
  (∀ w, keeps w (f w)) → calm P (act f).
Proof. intros Hf srv n w. cbn. split; [apply Hf|]. intros e [=]. Qed.

Lemma calm_console (P : Error → Prop) label e : calm P (console_error label e).
Proof. apply calm_act. intros w. now apply keeps_emit. Qed.

Lemma calm_apiCall ep options : calm (fun _ => True) (apiCall ep options).
Proof.
  intros srv n w. cbn [run apiCall].
  destruct (settle _) as [error|data]; cbn.
  - split; [|trivial]. eapply keeps_trans; apply keeps_emit; discriminate.
  - split; [|trivial]. now apply keeps_emit.
Qed.

Lemma calm_set_text id c : calm unmarked (set_text id c).
Proof.
  intros srv n w. unfold set_text. destruct (dom w !! id) as [el|]; cbn.
  - split; [apply keeps_with_dom|]. intros e [=].
  - split; [apply keeps_refl|]. intros e [= <-]. reflexivity.
Qed.

Lemma calm_set_textContent id s : calm unmarked (set_textContent id s).
Proof. apply calm_set_text. Qed.

Lemma calm_set_className id cs : calm unmarked (set_className id cs).
Proof.
  intros srv n w. unfold set_className. destruct (dom w !! id) as [el|]; cbn.
  - split; [apply keeps_with_dom|]. intros e [=].
  - split; [apply keeps_refl|]. intros e [= <-]. reflexivity.
Qed.

Lemma calm_set_innerHTML id c made : calm unmarked (set_innerHTML id c made).
Proof.
  intros srv n w. unfold set_innerHTML. destruct (dom w !! id) as [el|]; cbn.
  - split; [apply keeps_with_dom|]. intros e [=].
  - split; [apply keeps_refl|]. intros e [= <-]. reflexivity.
Qed.

Lemma calm_addEventListener id type : calm unmarked (addEventListener id type).
Proof.
  intros srv n w. unfold addEventListener. destruct (dom w !! id) as [el|]; cbn.
  - split; [now apply keeps_emit|]. intros e [=].
  - split; [apply keeps_refl|]. intros e [= <-]. reflexivity.
Qed.

Lemma calm_detach_valuation X :
  calm unmarked (detach (Dashboard.loadPortfolioValuation X)).
Proof.
  intros srv n w. cbn. split; [now apply keeps_emit|]. intros e [=].
Qed.

Lemma calm_forEach {A} (P : Error → Prop) (f : A → Async unit) (l : list A) :
  (∀ a, calm P (f a)) → calm P (forEach f l).
Proof.
  intros Hf. induction l as [|a l IH]; cbn [forEach].
  - apply calm_ret.
  - apply calm_bind; auto.
Qed.

Create HintDb calm.
#[local] Hint Resolve calm_ret calm_read calm_console calm_set_text
  calm_set_textContent
  calm_set_className calm_set_innerHTML calm_addEventListener
  calm_detach_valuation keeps_with_dom keeps_refl : calm.

Ltac calm_steps :=
  repeat first
    [ apply calm_bind; [|intros ?]
    | apply calm_forEach; intros ?
    | solve [eauto with calm]
    | apply calm_act; intros ?; solve [split; reflexivity] ].

Lemma calm_dashboard_loadUserInfo : calm unmarked Dashboard.loadUserInfo.
Proof.
  unfold Dashboard.loadUserInfo.
  apply calm_try_catch with (Q := fun _ => True).
  - apply calm_bind; [apply calm_apiCall|intros user].
    apply (calm_weaken unmarked); [trivial|]. calm_steps.
  - intros e _. calm_steps.
Qed.

Lemma calm_dashboard_renderPortfolios :
  calm unmarked Dashboard.renderPortfolios.
Proof.
  unfold Dashboard.renderPortfolios.
  apply calm_bind; [apply calm_read|intros ps].
  destruct ps; calm_steps.
Qed.

Lemma calm_dashboard_loadPortfolios : calm unmarked Dashboard.loadPortfolios.
Proof.
  unfold Dashboard.loadPortfolios.
  apply calm_try_catch with (Q := fun _ => True).
  - apply calm_bind; [apply calm_apiCall|intros data].
    apply (calm_weaken unmarked); [trivial|].
    apply calm_bind; [calm_steps|intros _].
    apply calm_bind; [|intros _; apply calm_dashboard_renderPortfolios].
    unfold Dashboard.updateDashboardStats. calm_steps.
  - intros e _. calm_steps.
Qed.

Lemma calm_dashboard_setupEventListeners :
  calm unmarked Dashboard.setupEventListeners.
Proof. unfold Dashboard.setupEventListeners. calm_steps. Qed.

(** Whatever the service answers and whatever the document holds,
    [init] of the dashboard leaves the store alone and asks for no redirect
    to the entry view: the errors that reach its handler are those of a
    missing element, and none of them has [401] in its message. *)
Theorem dashboard_init_never_logs_out (srv : Server) (n : nat) (w : World) :
  keeps w (run srv n (Dashboard.init w)).1.2.
Proof.
  assert (H : calm unmarked Dashboard.init); [|apply H].
  unfold Dashboard.init. apply calm_try_catch with (Q := unmarked).
  - apply calm_bind; [apply calm_dashboard_loadUserInfo|intros _].
    apply calm_bind; [apply calm_dashboard_loadPortfolios|intros _].
    apply calm_dashboard_setupEventListeners.
  - intros e He. apply calm_bind; [apply calm_console|intros _].
    unfold unmarked in He. rewrite He. apply calm_ret.
Qed.

Lemma calm_alert (P : Error → Prop) msg : calm P (alert msg).
Proof. apply calm_act. intros w. now apply keeps_emit. Qed.

Lemma calm_navigate (P : Error → Prop) href :
  href ≠ "index.html" → calm P (navigate href).
Proof.
  intros Hne. apply calm_act. intros w. apply keeps_emit.
  intros h [= <-]. exact Hne.
Qed.

#[local] Hint Resolve calm_alert : calm.

Lemma calm_detail_loadUserInfo : calm unmarked Detail.loadUserInfo.
Proof.
  unfold Detail.loadUserInfo.
  apply calm_try_catch with (Q := fun _ => True).
  - apply calm_bind; [apply calm_apiCall|intros user].
    apply (calm_weaken unmarked); [trivial|]. calm_steps.
  - intros e _. calm_steps.
Qed.

Lemma calm_detail_loadPortfolio : calm unmarked Detail.loadPortfolio.
Proof.
  unfold Detail.loadPortfolio.
  apply calm_try_catch with (Q := fun _ => True).
  - apply calm_bind; [apply calm_read|intros pid].
    apply calm_bind; [apply calm_apiCall|intros data].
    apply (calm_weaken unmarked); [trivial|]. calm_steps.
  - intros e _. calm_steps. apply calm_navigate. discriminate.
Qed.

Lemma calm_detail_loadHoldings : calm unmarked Detail.loadHoldings.
Proof.
  unfold Detail.loadHoldings.
  apply calm_try_catch with (Q := fun _ => True).
  - apply calm_bind; [apply calm_read|intros pid].
    apply calm_bind; [apply calm_apiCall|intros holdingsData].
    apply calm_bind; [calm_steps|intros _].
    apply calm_bind; [apply calm_read|intros pid'].
    apply calm_bind; [apply calm_apiCall|intros valuation].
    apply (calm_weaken unmarked); [trivial|].
    unfold Detail.updatePortfolioStats, Detail.renderHoldings.
    apply calm_bind; [calm_steps|intros _].
    destruct (default [] (Valuation.holdings valuation)); calm_steps.
  - intros e _. calm_steps.
Qed.

Lemma calm_detail_setupEventListeners :
  calm unmarked Detail.setupEventListeners.
Proof.
  assert (Hl : ∀ id type, calm unmarked (Detail.listen_if_present id type)).
  { intros id type. unfold Detail.listen_if_present, getElementById.
    apply calm_bind; [apply calm_read|intros [el|]]; calm_steps. }
  unfold Detail.setupEventListeners.
  do 3 (apply calm_bind; [solve [eauto with calm]|intros _]).
  apply calm_bind; [apply calm_act; intros w; split; reflexivity|intros _].
  repeat (apply calm_bind; [solve [eauto with calm]|intros _]).
  eauto with calm.
Qed.

(** The same of the detail page, which on a failed portfolio request asks
    for the dashboard and never for the entry view. *)
Theorem detail_init_never_logs_out (srv : Server) (n : nat) (w : World) :
  keeps w (run srv n (Detail.init w)).1.2.
Proof.
  assert (H : calm unmarked Detail.init); [|apply H].
  unfold Detail.init. apply calm_try_catch with (Q := unmarked).
  - apply calm_bind; [apply calm_detail_loadUserInfo|intros _].
    apply calm_bind; [apply calm_detail_loadPortfolio|intros _].
    apply calm_bind; [apply calm_detail_loadHoldings|intros _].
    apply calm_detail_setupEventListeners.
  - intros e He. apply calm_bind; [apply calm_console|intros _].
    unfold unmarked in He. rewrite He. apply calm_ret.
Qed.

(** ** The debounced search *)

Lemma onSearchInput_long (value : string) (w : World) :
  (2 <= String.length (Str.trim value))%nat →
  Detail.onSearchInput value w
  = Done (with_timers (now w)
            (schedule {| tid := next_timer w; due := (now w + 300)%nat;
                         action := SearchCoins (Str.trim value) |}
                      (uncancelled w))
            (S (next_timer w)) (Some (next_timer w)) w)
         (inr tt).
Proof.
  intros Hlong. unfold Detail.onSearchInput, bind, read, clearTimeout, act.
  cbn [bind_step].
  assert (Hlt : (String.length (Str.trim value) <? 2)%nat = false)
    by (apply Nat.ltb_ge; exact Hlong).
  rewrite Hlt. unfold uncancelled.
  destruct (searchTimeout w) as [h|]; reflexivity.
Qed.

Lemma cancelled_fields (w : World) :
  timers (cancelled w) = uncancelled w ∧ dom (cancelled w) = dom w
  ∧ log (cancelled w) = log w ∧ now (cancelled w) = now w.
Proof.
  unfold cancelled, uncancelled, clearTimeout, act. cbn [world_of].
  destruct (searchTimeout w); repeat split; reflexivity.
Qed.

Lemma onSearchInput_short (value : string) (w : World) :
  (String.length (Str.trim value) < 2)%nat →
  world_of (Detail.onSearchInput value w)
  = match dom w !! "coinSearchResults" with
    | Some el =>
        with_dom (insert "coinSearchResults"
                    (set_classes (classList_remove "show" (classes el)) el))
                 (cancelled w)
    | None => cancelled w
    end.
Proof.
  intros Hshort. unfold Detail.onSearchInput, bind, read.
  cbn [bind_step]. apply Nat.ltb_lt in Hshort. rewrite Hshort.
  unfold cancelled, clearTimeout, act, classList. cbn [bind_step world_of].
  destruct (searchTimeout w) as [h|]; cbn [dom with_timers];
    destruct (dom w !! "coinSearchResults"); reflexivity.
Qed.

Lemma show_removed (cs : list string) : "show" ∉ classList_remove "show" cs.
Proof.
  unfold classList_remove. intros Hin. apply list_elem_of_In in Hin.
  apply List.filter_In in Hin. destruct Hin as [_ Hneq]. discriminate Hneq.
Qed.

Lemma scheduled_armed t v w : scheduled t v w → armed t w.
Proof.
  unfold scheduled, armed.
  destruct (2 <=? String.length (Str.trim v))%nat; [|now left].
  intros (h & Ht & Hs). right. eauto.
Qed.

Lemma advance_before (t t' : nat) (w : World) :
  armed t w → (t' < t + 300)%nat → (now w <= t')%nat →
  advance t' w
  = with_timers t' (timers w) (next_timer w) (searchTimeout w) w.
Proof.
  intros Harmed Hlt Hnow. unfold advance.
  replace (Nat.max (now w) t') with t' by lia.
  destruct Harmed as [Hnone|(h & q & Hone & _)].
  - rewrite Hnone. reflexivity.
  - rewrite Hone. cbn [List.filter due].
    assert (Hle : (t + 300 <=? t')%nat = false) by (apply Nat.leb_gt; lia).
    rewrite Hle. reflexivity.
Qed.

Lemma input_step (t t' : nat) (v : string) (w : World) :
  armed t w → (t' < t + 300)%nat → (now w <= t')%nat →
  now (input t' v w) = t'
  ∧ log (input t' v w) = log w
  ∧ scheduled t' v (input t' v w)
  ∧ (is_Some (dom w !! "coinSearchResults") → results_shown v (input t' v w)).
Proof.
  intros Harmed Hlt Hnow. unfold input.
  rewrite (advance_before t t' w Harmed Hlt Hnow).
  set (w1 := with_timers t' (timers w) (next_timer w) (searchTimeout w) w).
  assert (Hclear : uncancelled w1 = []).
  { unfold uncancelled, w1. cbn [searchTimeout timers with_timers].
    destruct Harmed as [Hnone|(h & q & Hone & Hh)].
    - rewrite Hnone. now destruct (searchTimeout w).
    - rewrite Hone, Hh. cbn. now rewrite Nat.eqb_refl. }
  unfold scheduled, results_shown.
  destruct (2 <=? String.length (Str.trim v))%nat eqn:Hlen.
  - apply Nat.leb_le in Hlen. rewrite (onSearchInput_long v w1 Hlen).
    rewrite Hclear. cbn. repeat split.
    + eexists. split; reflexivity.
    + intros [el Hel]. exists el. split; [exact Hel|]. lia.
  - apply Nat.leb_gt in Hlen. rewrite (onSearchInput_short v w1 Hlen).
    destruct (cancelled_fields w1) as (Ht & Hd & Hl & Hn).
    rewrite Hclear in Ht.
    change (dom w1) with (dom w).
    destruct (dom w !! "coinSearchResults") as [el|] eqn:Hel;
      cbn [now log timers dom with_dom]; rewrite ?Ht, ?Hl, ?Hn, ?Hd.
    + repeat split. intros _. eexists. split.
      * apply lookup_insert_eq.
      * intros _. apply show_removed.
    + repeat split. intros [el' [=]].
Qed.

Lemma last_cons {A} (l : list A) (x d : A) :
  List.last (x :: l) d = List.last l x.
Proof.
  revert x d. induction l as [|y l IH]; intros x d; [reflexivity|].
  change (List.last (x :: y :: l) d) with (List.last (y :: l) d).
  now rewrite !IH.
Qed.

Lemma inputs_coalesce (ks : list (nat * string)) :
  ∀ (t : nat) (v : string) (w0 w : World),
    now w = t → log w = log w0 → scheduled t v w →
    (is_Some (dom w0 !! "coinSearchResults") → results_shown v w) →
    burst t ks →
    let k := List.last ks (t, v) in
    let w' := fold_left (fun w' k => input k.1 k.2 w') ks w in
    now w' = k.1
    ∧ log w' = log w0
    ∧ scheduled k.1 k.2 w'
    ∧ (is_Some (dom w0 !! "coinSearchResults") → results_shown k.2 w').
Proof.
  induction ks as [|[t' v'] ks IH]; intros t v w0 w Hnow Hlog Hsch Hres Hburst.
  - cbn. auto.
  - destruct Hburst as [[Hge Hlt] Hrest]. cbn [fst snd] in *.
    destruct (input_step t t' v' w (scheduled_armed _ _ _ Hsch) Hlt)
      as (Hnow' & Hlog' & Hsch' & Hres'); [lia|].
    cbn [fold_left fst snd].
    rewrite last_cons.
    apply (IH t' v' w0 (input t' v' w)); auto.
    + congruence.
    + intros Hsome. apply Hres'. destruct (Hres Hsome) as (el & Hel & _).
      eauto.
Qed.

Lemma searchCoins_logs (q : string) (w : World) :
  log (world_of (Detail.searchCoins q w))
  = (log w ++ [Fetch {| endpoint := COIN_SEARCH q; method := None;
                        headers := apiCall_headers (storage w !! TOKEN_KEY)
                                     no_options;
                        body := None |}])%list
  ∧ dom (world_of (Detail.searchCoins q w)) = dom w.
Proof. split; reflexivity. Qed.

Lemma advance_after (t t_end : nat) (v : string) (w : World) :
  scheduled t v w → (t + 300 <= t_end)%nat →
  searches (log (advance t_end w))
  = (searches (log w)
     ++ if (2 <=? String.length (Str.trim v))%nat
        then [Str.trim v] else [])%list
  ∧ dom (advance t_end w) = dom w.
Proof.
  unfold scheduled. intros Hsch Hend. unfold advance.
  destruct (2 <=? String.length (Str.trim v))%nat.
  - destruct Hsch as (h & Hone & _). rewrite Hone. cbn [List.filter due].
    assert (Hle : (t + 300 <=? t_end)%nat = true) by (apply Nat.leb_le; lia).
    rewrite Hle. cbn [negb fold_left action perform].
    destruct (searchCoins_logs (Str.trim v)
                (with_timers (Nat.max (now w) t_end) [] (next_timer w)
                            (searchTimeout w) w)) as [Hlog Hdom].
    rewrite Hlog, Hdom. cbn [log dom with_timers]. split; [|reflexivity].
    unfold searches. rewrite omap_app. reflexivity.
  - rewrite Hsch. cbn. now rewrite app_nil_r.
Qed.

(** C7: keystrokes in the search box, the first at [t1] with no timer
    pending and each later one less than 300 after the one before it,
    and then the clock at [t_end], 300 or more after the last. While
    they are typed no search is sent, and after the last of them exactly one
    search is scheduled, 300 after it, for its trimmed value, or none at all
    if that has fewer than 2 characters; by [t_end] that one search has been
    sent and no other, and after too short a last input the results are
    hidden. *)
Theorem debounce_coalesces
    (w : World) (t1 : nat) (v1 : string) (ks : list (nat * string))
    (t_end : nat) :
  timers w = [] →
  (now w <= t1)%nat →
  burst t1 ks →
  let all := (t1, v1) :: ks in
  let k := List.last all (t1, v1) in
  (k.1 + 300 <= t_end)%nat →
  let typed := fold_left (fun w' k => input k.1 k.2 w') all w in
  log typed = log w
  ∧ scheduled k.1 k.2 typed
  ∧ searches (log (typing all t_end w))
    = (searches (log w)
       ++ if (2 <=? String.length (Str.trim k.2))%nat
          then [Str.trim k.2] else [])%list
  ∧ (is_Some (dom w !! "coinSearchResults") →
     (String.length (Str.trim k.2) < 2)%nat →
     ∃ el, dom (typing all t_end w) !! "coinSearchResults" = Some el
           ∧ "show" ∉ classes el).
Proof.
  intros Hnone Hnow Hburst all k Hend typed.
  destruct (input_step t1 t1 v1 w (or_introl Hnone)) as (Hn & Hl & Hs & Hr);
    [lia|exact Hnow|].
  assert (Hlast : k = List.last ks (t1, v1)) by apply last_cons.
  destruct (inputs_coalesce ks t1 v1 w (input t1 v1 w) Hn Hl Hs Hr Hburst)
    as (Hn' & Hl' & Hs' & Hr').
  fold k in Hlast. cbv zeta in Hn', Hl', Hs', Hr'. rewrite <- Hlast in *.
  change (fold_left (fun w' k => input k.1 k.2 w') ks (input t1 v1 w))
    with typed in *.
  destruct (advance_after k.1 t_end k.2 typed Hs' Hend) as [Hsearch Hdom].
  split; [exact Hl'|]. split; [exact Hs'|]. split.
  - unfold typing. fold typed. rewrite Hsearch, Hl'. reflexivity.
  - intros Hsome Hshort. unfold typing. fold typed. rewrite Hdom.
    destruct (Hr' Hsome) as (el & Hel & Hhide). eauto.
Qed.

(** Typing [b], [bt], [btc] at 0, 100 and 200 and looking at time 500. *)
Lemma debounce_coalesces_witness :
  (timers (blank ∅ ["coinSearchResults"]) = []
   ∧ (now (blank ∅ ["coinSearchResults"]) <= 0)%nat
   ∧ burst 0 [(100%nat, "bt"); (200%nat, "btc")]
   ∧ (200 + 300 <= 500)%nat)
  ∧ searches (log (typing [(0%nat, "b"); (100%nat, "bt"); (200%nat, "btc")]
                          500 (blank ∅ ["coinSearchResults"])))
    = ["btc"].
Proof.
  assert (Hb : burst 0 [(100%nat, "bt"); (200%nat, "btc")])
    by (cbn; repeat split; lia).
  assert (Hend : (200 + 300 <= 500)%nat) by lia.
  split.
  { split; [reflexivity|]. split; [apply le_n|]. split; [exact Hb|exact Hend]. }
  destruct (debounce_coalesces (blank ∅ ["coinSearchResults"]) 0 "b"
              [(100%nat, "bt"); (200%nat, "btc")] 500
              eq_refl (le_n 0) Hb Hend) as (_ & _ & Hsearches & _).
  exact Hsearches.
Defined.

(** A single [b], and the window past: no search is sent and the results
    are hidden. *)
Example single_letter_sends_nothing :
  let w := typing [(0%nat, "b")] 1000
             (with_dom (insert "coinSearchResults"
                          (set_classes ["results"; "show"] (fresh (Text ""))))
                       (blank ∅ [])) in
  fetches (log w) = []
  ∧ classes <$> dom w !! "coinSearchResults" = Some ["results"].
Proof. vm_compute. split; reflexivity. Qed.

(** A pause of 300 or more between two inputs lets the first search go. *)
Example pause_sends_both :
  searches (log (typing [(0%nat, "bt"); (300%nat, "btc")] 600
                        (blank ∅ ["coinSearchResults"])))
  = ["bt"; "btc"].
Proof. vm_compute. reflexivity. Qed.

(** The address of the one search of the witness. *)
Example search_address :
  url (COIN_SEARCH (Str.trim " btc "))
  = "http://localhost:8000/api/coins/search?query=btc"
  ∧ url (COIN_SEARCH "bit coin")
    = "http://localhost:8000/api/coins/search?query=bit%20coin".
Proof. split; reflexivity. Qed.

(** Without a token the detail page, too, logs the redirect first and the
    request for the user last, with the redirect to the dashboard between
    them when the address has no [id]. *)
Lemma unauthenticated_detail_prefix (w : World) :
  truthy_str (storage w !! TOKEN_KEY) = false →
  log (world_of (Detail.page w))
  = (log w
     ++ [Navigate "index.html"]
     ++ (if truthy_str (url_id w) then [] else [Navigate "dashboard.html"])
     ++ [Fetch {| endpoint := ME; method := None;
                  headers := apiCall_headers (storage w !! TOKEN_KEY)
                               no_options;
                  body := None |}])%list.
Proof.
  intros Hnone.
  unfold Detail.page, Detail.guard, Detail.readPortfolioId, isAuthenticated,
    getToken, bind, read.
  cbn [bind_step ret]. rewrite Hnone. cbn.
  destruct (truthy_str (url_id w)); cbn; now rewrite <- !app_assoc.
Qed.
